(** * collect_loc_history: the incremental code-size history collector

    A shallow embedding of [scripts/line_count/collect_loc_history.py]
    and the properties of its resume logic, its per-commit extraction step
    and its size-oracle adapter.

    Modelling conventions.
    - Python [str] values are [string]s of 8-bit characters, read as the
      code points 0..255; [str.isspace] and [str.isdigit] are the Unicode
      predicates restricted to that range.
    - Everything outside the process is a field of [World]: the answers of
      [git], [tar], [cloc] and [tempfile.mkdtemp].  [None] stands for
      [subprocess.run] (or [mkdtemp]) raising.
    - The mutable state is the ledger file and the temporary file system,
      threaded through a state-and-exception monad [M].
    - [print] calls are not modelled. *)

From Stdlib Require Import Ascii NArith ZArith Decimal DecimalString DecimalPos DecimalN.
From stdpp Require Import base option list sorting gmap strings.

Local Open Scope N_scope.

(** ** Characters and text primitives *)

Definition LF : ascii := Ascii.ascii_of_nat 10.
Definition CR : ascii := Ascii.ascii_of_nat 13.
Definition COMMA : ascii := Ascii.ascii_of_nat 44.
Definition DQUOTE : ascii := Ascii.ascii_of_nat 34.
Definition DOT : ascii := Ascii.ascii_of_nat 46.
Definition DASH : ascii := Ascii.ascii_of_nat 45.

Definition code_point (c : ascii) : N := Ascii.N_of_ascii c.

(** [str.isspace] on one character: TAB..CR, FS..US, SPACE, NEL, NBSP. *)
Definition py_isspace (c : ascii) : bool :=
  let n := code_point c in
  ((9 <=? n) && (n <=? 13)) || ((28 <=? n) && (n <=? 32))
  || (n =? 133) || (n =? 160).

(** ASCII decimal digits, the characters [int] accepts. *)
Definition is_ascii_digit (c : ascii) : bool :=
  let n := code_point c in (48 <=? n) && (n <=? 57).

(** [str.isdigit] on one character: the ASCII digits and the superscripts
    two, three and one of Latin-1. *)
Definition py_isdigit_char (c : ascii) : bool :=
  let n := code_point c in
  is_ascii_digit c || (n =? 178) || (n =? 179) || (n =? 185).

Definition ascii_eqb (a b : ascii) : bool := Ascii.eqb a b.

(** [bool(s)] for a string. *)
Definition truthy (s : string) : bool :=
  match s with EmptyString => false | String _ _ => true end.

(** [s.lstrip()], [s.rstrip()] and [s.strip()]. *)
Fixpoint lstrip (s : string) : string :=
  match s with
  | EmptyString => EmptyString
  | String c r => if py_isspace c then lstrip r else s
  end.

Fixpoint rstrip (s : string) : string :=
  match s with
  | EmptyString => EmptyString
  | String c r =>
      match rstrip r with
      | EmptyString => if py_isspace c then EmptyString else String c EmptyString
      | r' => String c r'
      end
  end.

Definition strip (s : string) : string := rstrip (lstrip s).

(** [s.split(sep)] for a one-character separator: never empty. *)
Fixpoint split (sep : ascii) (s : string) : list string :=
  match s with
  | EmptyString => [EmptyString]
  | String c r =>
      if ascii_eqb c sep then EmptyString :: split sep r
      else match split sep r with
           | h :: t => String c h :: t
           | [] => [String c EmptyString]
           end
  end.

(** [s.startswith(p)]. *)
Definition startswith (s p : string) : bool := String.prefix p s.

(** [c in s]. *)
Fixpoint contains (c : ascii) (s : string) : bool :=
  match s with
  | EmptyString => false
  | String a r => ascii_eqb a c || contains c r
  end.

(** [s.isdigit()]: non-empty and every character a digit. *)
Fixpoint all_chars (p : ascii -> bool) (s : string) : bool :=
  match s with
  | EmptyString => true
  | String c r => p c && all_chars p r
  end.

Definition isdigit (s : string) : bool := truthy s && all_chars py_isdigit_char s.

(** [int(s)] on a string for which [isdigit] holds: the decimal value, or
    [None] for the [ValueError] raised on a superscript digit.  The
    interpreter's limit on the length of such a string is not modelled. *)
Fixpoint int_acc (acc : N) (s : string) : option N :=
  match s with
  | EmptyString => Some acc
  | String c r =>
      if is_ascii_digit c then int_acc (10 * acc + (code_point c - 48)) r
      else None
  end.

Definition py_int (s : string) : option N :=
  if truthy s then int_acc 0 s else None.

(** [str(n)] for a non-negative integer. *)
Definition py_str (n : N) : string := NilEmpty.string_of_uint (N.to_uint n).

(** Text-mode reading with [newline=None]: CR LF and lone CR both become
    LF.  [after_cr] is the decoder's pending-CR flag. *)
Fixpoint decode_newlines (after_cr : bool) (s : string) : string :=
  match s with
  | EmptyString => EmptyString
  | String c r =>
      if ascii_eqb c CR then String LF (decode_newlines true r)
      else if ascii_eqb c LF then
        (if after_cr then decode_newlines false r
         else String LF (decode_newlines false r))
      else String c (decode_newlines false r)
  end.

(** [f.readlines()] on decoded text: lines keep their terminating LF. *)
Fixpoint readlines (s : string) : list string :=
  match s with
  | EmptyString => []
  | String c r =>
      if ascii_eqb c LF then String c EmptyString :: readlines r
      else match readlines r with
           | h :: t => String c h :: t
           | [] => [String c EmptyString]
           end
  end.

(** String order: Python compares [str] by code point, lexicographically. *)
Definition str_lt (a b : string) : Prop := String.ltb a b = true.
Definition str_gt (a b : string) : bool := String.ltb b a.

(** ** Data model *)

(** The dict [{"code": _, "comment": _, "blank": _}]. *)
Record SizeMetric := { code : N; comment : N; blank : N }.

Definition zero_metric : SizeMetric := {| code := 0; comment := 0; blank := 0 |}.

(** The dict returned by [collect_stats_for_commit]. *)
Record Stats := { frontend : SizeMetric; backend : SizeMetric; total_code : N }.

(** One data row of the ledger. *)
Record LedgerRow := { day : string; stats : Stats }.

(** Paths are lists of components; a node is a directory or a file whose
    content is [None] when it cannot be opened. *)
Inductive node := Dir | File (content : option string).

(** The mutable state: the ledger file [OUTPUT_FILE] ([None] when it does
    not exist) and the temporary file system, which is disjoint from it. *)
Record State := { ledger : option string; tmpfs : gmap (list string) node }.

Definition set_ledger (l : option string) (st : State) : State :=
  {| ledger := l; tmpfs := tmpfs st |}.
Definition set_tmpfs (fs : gmap (list string) node) (st : State) : State :=
  {| ledger := ledger st; tmpfs := fs |}.

(** The outside world. *)
Record World := {
  (** [subprocess.run(["git"] + args, ...)]: captured stdout and return code. *)
  git : list string -> option (string * Z);
  (** [tempfile.mkdtemp(prefix="loc_history_")]: the directory it creates. *)
  mkdtemp : gmap (list string) node -> option (list string);
  (** [tar -xf -] on an archive: the entries it unpacks, relative to [cwd]. *)
  tar_xf : string -> option (list (list string * node));
  (** [cloc <dir> --csv --quiet]: captured stdout. *)
  cloc : gmap (list string) node -> list string -> option string
}.

(** ** The state-and-exception monad *)

Inductive outcome (A : Type) := Returned (a : A) | Raised.
Arguments Returned {A} a.
Arguments Raised {A}.

Definition M (A : Type) : Type := State -> outcome A * State.

Definition ret {A} (a : A) : M A := fun st => (Returned a, st).
Definition raise {A} : M A := fun st => (Raised, st).
Definition bind {A B} (m : M A) (k : A -> M B) : M B :=
  fun st => match m st with
            | (Returned a, st') => k a st'
            | (Raised, st') => (Raised, st')
            end.

Declare Scope py_scope.
Delimit Scope py_scope with py.
Notation "x <- m ;; k" := (bind m (fun x => k))
  (at level 100, m at next level, right associativity) : py_scope.
Notation "m ;;; k" := (bind m (fun _ => k))
  (at level 100, right associativity) : py_scope.
Local Open Scope py_scope.

(** [try: m except Exception: h]. *)
Definition try_except {A} (m : M A) (h : M A) : M A :=
  fun st => match m st with
            | (Returned a, st') => (Returned a, st')
            | (Raised, st') => h st'
            end.

(** [try: m finally: c], for a cleanup [c] that does not raise. *)
Definition try_finally {A} (m : M A) (c : State -> State) : M A :=
  fun st => let '(r, st') := m st in (r, c st').

(** The exit status of the interpreter: 0 when [main] returns, 1 when an
    exception reaches the top level. *)
Definition exit_code {A} (r : outcome A) : Z :=
  match r with Returned _ => 0%Z | Raised => 1%Z end.

(** ** File-system operations on the temporary area *)

(** [p.exists()]. *)
Definition path_exists (p : list string) (st : State) : bool :=
  bool_decide (is_Some (tmpfs st !! p)).

(** [p.mkdir()]: raises when [p] exists or its parent is not a directory. *)
Definition mkdir (p : list string) : M unit :=
  fun st =>
    if path_exists p st then (Raised, st)
    else match tmpfs st !! removelast p with
         | Some Dir => (Returned tt, set_tmpfs (<[p := Dir]> (tmpfs st)) st)
         | _ => (Raised, st)
         end.

(** Unpacking archive entries below [cwd]. *)
Definition unpack (cwd : list string) (entries : list (list string * node))
    (fs : gmap (list string) node) : gmap (list string) node :=
  foldr (fun e acc => <[cwd ++ e.1 := e.2]> acc) fs entries.

(** The directory made by a successful [mkdtemp]. *)
Definition with_temp_dir (temp_dir : list string) (st : State) : State :=
  set_tmpfs (<[temp_dir := Dir]> (tmpfs st)) st.

(** [shutil.rmtree(p, ignore_errors=True)]: [p] and everything below it
    is removed.  A removal that the system refuses would go unreported;
    the model takes the removal to succeed. *)
Definition rmtree (p : list string) (st : State) : State :=
  set_tmpfs (filter (fun kv => ¬ p `prefix_of` kv.1) (tmpfs st)) st.

(** ** CSV output ([csv.writer], default dialect) *)

Definition CRLF : string := String CR (String LF EmptyString).

(** A field is quoted when it holds the delimiter, the quote character or a
    line-terminator character; quote characters inside are doubled. *)
Definition needs_quote (s : string) : bool :=
  contains COMMA s || contains DQUOTE s || contains CR s || contains LF s.

Fixpoint double_quotes (s : string) : string :=
  match s with
  | EmptyString => EmptyString
  | String c r =>
      if ascii_eqb c DQUOTE then String DQUOTE (String DQUOTE (double_quotes r))
      else String c (double_quotes r)
  end.

Definition csv_field (s : string) : string :=
  if needs_quote s
  then String DQUOTE (double_quotes s +:+ String DQUOTE EmptyString)
  else s.

Fixpoint join_fields (fields : list string) : string :=
  match fields with
  | [] => EmptyString
  | [f] => f
  | f :: rest => f +:+ String COMMA (join_fields rest)
  end.

(** What [writer.writerow(cells)] sends to the file. *)
Definition csv_writerow (cells : list string) : string :=
  join_fields (map csv_field cells) +:+ CRLF.

Definition HEADER : list string :=
  ["date"; "frontend_code"; "frontend_comment"; "frontend_blank";
   "backend_code"; "backend_comment"; "backend_blank"; "total_code"].

(** The cells of a data row, in the order of [writer.writerow] in [main]. *)
Definition row_cells (date : string) (s : Stats) : list string :=
  [date;
   py_str (code (frontend s)); py_str (comment (frontend s)); py_str (blank (frontend s));
   py_str (code (backend s)); py_str (comment (backend s)); py_str (blank (backend s));
   py_str (total_code s)].

Definition row_text (r : LedgerRow) : string := csv_writerow (row_cells (day r) (stats r)).

Fixpoint rows_text (rows : list LedgerRow) : string :=
  match rows with
  | [] => EmptyString
  | r :: rest => row_text r +:+ rows_text rest
  end.

(** The file of a ledger holding [rows]: the header line, then one line
    per row. *)
Definition ledger_text (rows : list LedgerRow) : string :=
  csv_writerow HEADER +:+ rows_text rows.

(** ** The program *)

(** Pure parts of the resume logic. *)

(** [get_last_collected_date] on the content of an existing ledger. *)
Definition last_collected_in (content : string) : option string :=
  let lines := readlines (decode_newlines false content) in
  if bool_decide (1 < length lines)%nat then
    let last_line := strip (List.last lines EmptyString) in
    if truthy last_line then Some (hd EmptyString (split COMMA last_line))
    else None
  else None.

(** [not last_collected or d > last_collected]. *)
Definition to_collect (last_collected : option string) (d : string) : bool :=
  match last_collected with
  | None => true
  | Some l => negb (truthy l) || str_gt d l
  end.

Definition dates_to_collect (last_collected : option string) (all_dates : list string)
    : list string :=
  filter (fun d => to_collect last_collected d) all_dates.

(** [sorted(set(xs))]: the distinct elements in ascending string order. *)
Definition sorted_set (xs : list string) : list string :=
  merge_sort String.le (remove_dups xs).

(** The loop of [run_cloc] over [reversed(lines)]: [None] when no line
    qualifies, [Some Raised] when [int] raises, else the metric returned. *)
Definition cloc_field (s : string) : outcome N :=
  if isdigit s then match py_int s with Some n => Returned n | None => Raised end
  else Returned 0.

Definition cloc_line (parts : list string) : outcome SizeMetric :=
  match cloc_field (nth 2 parts EmptyString) with
  | Raised => Raised
  | Returned b =>
      match cloc_field (nth 3 parts EmptyString) with
      | Raised => Raised
      | Returned cm =>
          match cloc_field (nth 4 parts EmptyString) with
          | Raised => Raised
          | Returned cd => Returned {| code := cd; comment := cm; blank := b |}
          end
      end
  end.

Fixpoint cloc_scan (lines : list string) : option (outcome SizeMetric) :=
  match lines with
  | [] => None
  | line :: rest =>
      if truthy line && negb (startswith line "files") then
        let parts := split COMMA line in
        if bool_decide (5 <= length parts)%nat then Some (cloc_line parts)
        else cloc_scan rest
      else cloc_scan rest
  end.

Definition parse_cloc (stdout : string) : option (outcome SizeMetric) :=
  cloc_scan (rev (split LF (strip stdout))).

(** [Path.suffix] of a file name. *)
Fixpoint rfind_dot (s : string) : option nat :=
  match s with
  | EmptyString => None
  | String c r =>
      match rfind_dot r with
      | Some i => Some (S i)
      | None => if ascii_eqb c DOT then Some O else None
      end
  end.

Definition suffix (name : string) : string :=
  match rfind_dot name with
  | Some i =>
      if bool_decide (0 < i < String.length name - 1)%nat
      then String.substring i (String.length name - i) name
      else EmptyString
  | None => EmptyString
  end.

Definition EXTENSIONS : list string :=
  [".ts"; ".tsx"; ".vue"; ".js"; ".jsx"; ".rs"; ".css"; ".scss"].

(** [sum(1 for line in fp if line.strip())]. *)
Definition nonblank_lines (content : string) : N :=
  N.of_nat (length (filter (fun l => truthy (strip l))
                      (readlines (decode_newlines false content)))).

(** The contribution of one entry of [directory.rglob("*")]. *)
Definition simple_count_entry (directory : list string) (e : list string * node) : N :=
  match e.2 with
  | File content =>
      if bool_decide (directory `prefix_of` e.1 /\ e.1 <> directory)
         && bool_decide (suffix (List.last e.1 EmptyString) ∈ EXTENSIONS)
      then match content with Some c => nonblank_lines c | None => 0 end
      else 0
  | Dir => 0
  end.

Definition count_lines_simple (directory : list string) (st : State) : N :=
  if path_exists directory st
  then foldr (fun e acc => simple_count_entry directory e + acc) 0 (map_to_list (tmpfs st))
  else 0.

(** The three history queries, as argument lists of [git]. *)
Definition DATES_QUERY : list string :=
  ["log"; "--all"; "--format=%ad"; "--date=short"].

Definition commit_query (date : string) : list string :=
  ["log"; "--all"; "--format=%H"; "--until=" +:+ date +:+ " 23:59:59"; "-1"].

Definition archive_query (commit pathspec : string) : list string :=
  ["archive"; "--format=tar"; commit; "--"; pathspec].

Section Program.

Variable w : World.

(** [run_git(args)]: the stripped stdout and whether the return code is 0. *)
Definition run_git (args : list string) : M (string * bool) :=
  fun st => match git w args with
            | Some (out, rc) => (Returned (strip out, (rc =? 0)%Z), st)
            | None => (Raised, st)
            end.

(** [run_cloc(directory)]. *)
Definition run_cloc (directory : list string) (st : State) : SizeMetric :=
  if negb (path_exists directory st) then zero_metric
  else match cloc w (tmpfs st) directory with
       | None => zero_metric
       | Some out =>
           match parse_cloc out with
           | Some (Returned m) => m
           | Some Raised => zero_metric
           | None => zero_metric
           end
       end.

(** [get_all_dates()]. *)
Definition get_all_dates : M (list string) :=
  r <- run_git DATES_QUERY ;;
  let dates := sorted_set (split LF r.1) in
  ret (filter (fun d => truthy d) dates).

(** [get_last_collected_date()]. *)
Definition get_last_collected_date : M (option string) :=
  fun st => match ledger st with
            | None => (Returned None, st)
            | Some content => (Returned (last_collected_in content), st)
            end.

(** [get_commit_for_date(date)]. *)
Definition get_commit_for_date (date : string) : M (option string) :=
  r <- run_git (commit_query date) ;;
  ret (if truthy r.1 then Some r.1 else None).

(** One of the two extraction blocks of [collect_stats_for_commit]:
    [git archive] of [tracked] at [commit], unpacked below
    [temp_dir / name], measured at [temp_dir / name / tracked].  The metric
    keeps its initial value, all zero, when a guard fails. *)
Definition measure_subtree (commit : string) (temp_dir : list string)
    (name : string) (tracked : list string) (pathspec : string) : M SizeMetric :=
  fun st =>
    match git w (archive_query commit pathspec) with
    | None => (Raised, st)
    | Some (out, rc) =>
        if (rc =? 0)%Z && truthy out then
          let sub_dir := temp_dir ++ [name] in
          match mkdir sub_dir st with
          | (Raised, st1) => (Raised, st1)
          | (Returned _, st1) =>
              match tar_xf w out with
              | None => (Raised, st1)
              | Some entries =>
                  let st2 := set_tmpfs (unpack sub_dir entries (tmpfs st1)) st1 in
                  let sub_path := sub_dir ++ tracked in
                  if path_exists sub_path st2
                  then (Returned (run_cloc sub_path st2), st2)
                  else (Returned zero_metric, st2)
              end
          end
        else (Returned zero_metric, st)
    end.

(** The body of the [try] once [temp_dir] is bound. *)
Definition measure_commit (commit : string) (temp_dir : list string) : M Stats :=
  frontend_stats <- measure_subtree commit temp_dir "frontend" ["src"] "src" ;;
  backend_stats <- measure_subtree commit temp_dir "backend" ["src-tauri"; "src"]
                     "src-tauri/src" ;;
  ret {| frontend := frontend_stats; backend := backend_stats;
         total_code := code frontend_stats + code backend_stats |}.

(** The [finally] clause for a bound [temp_dir]. *)
Definition cleanup (temp_dir : list string) (st : State) : State :=
  if path_exists temp_dir st then rmtree temp_dir st else st.

(** [collect_stats_for_commit(commit)].  When [mkdtemp] raises, [temp_dir]
    is still [None]: the handler returns [None] and [finally] does nothing. *)
Definition collect_stats_for_commit (commit : string) : M (option Stats) :=
  fun st =>
    match mkdtemp w (tmpfs st) with
    | None => (Returned None, st)
    | Some temp_dir =>
        try_finally
          (try_except (s <- measure_commit commit temp_dir ;; ret (Some s)) (ret None))
          (cleanup temp_dir) (with_temp_dir temp_dir st)
    end.

(** [writer.writerow(row)] followed by [f.flush()] on the ledger opened
    in append mode. *)
Definition append_row (date : string) (s : Stats) : M unit :=
  fun st =>
    (Returned tt,
     set_ledger (Some (default EmptyString (ledger st) +:+ csv_writerow (row_cells date s))) st).

(** One iteration of the [for] loop of [main]. *)
Definition collect_day (date : string) : M unit :=
  commit <- get_commit_for_date date ;;
  match commit with
  | None => ret tt
  | Some c =>
      s <- collect_stats_for_commit c ;;
      match s with
      | None => ret tt
      | Some s => append_row date s
      end
  end.

Fixpoint collect_loop (dates : list string) : M unit :=
  match dates with
  | [] => ret tt
  | date :: rest => collect_day date ;;; collect_loop rest
  end.

(** Creating the ledger anew with its header line. *)
Definition write_header : M unit :=
  fun st => (Returned tt, set_ledger (Some (csv_writerow HEADER)) st).

(** [main()] with [sys.argv = argv]. *)
Definition main (argv : list string) : M unit :=
  let force_full := bool_decide ("--full" ∈ argv) in
  last_collected <- (if force_full then ret None else get_last_collected_date) ;;
  last_collected <-
    (fun st => if negb (bool_decide (is_Some (ledger st))) || force_full
               then (write_header ;;; ret None) st
               else ret last_collected st) ;;
  all_dates <- get_all_dates ;;
  let dates := dates_to_collect last_collected all_dates in
  if bool_decide (dates = []) then ret tt
  else collect_loop dates.

End Program.

(** * Vocabulary of the statements *)

(** ** Ledger files *)

(** The pending-CR flag of the decoder after it has read [s]. *)
Fixpoint ends_cr (b : bool) (s : string) : bool :=
  match s with
  | EmptyString => b
  | String c r => ends_cr (ascii_eqb c CR) r
  end.

(** A day that [csv.writer] writes as it is and that [strip] and
    [split(",")] give back: no delimiter, quote, CR or LF, and no leading
    white space. *)
Definition plain_day (d : string) : bool :=
  negb (needs_quote d)
  && negb (match d with EmptyString => false | String c _ => py_isspace c end).

(** The text of a data row: the day, a comma, and a tail of digits and
    commas. *)
Definition row_tail (s : Stats) : string :=
  join_fields (map py_str
    [code (frontend s); comment (frontend s); blank (frontend s);
     code (backend s); comment (backend s); blank (backend s); total_code s]).

(** ** The temporary tree *)

(** What lies outside of the tree rooted at [d]. *)
Definition outside (d : list string) (fs : gmap (list string) node)
    : gmap (list string) node :=
  filter (fun kv => ¬ d `prefix_of` kv.1) fs.

(** What a part of the step may do to the state: the ledger is not
    touched, nothing outside [temp_dir] changes, nothing disappears. *)
Definition extends_under (temp_dir : list string) (st st' : State) : Prop :=
  ledger st' = ledger st
  /\ outside temp_dir (tmpfs st') = outside temp_dir (tmpfs st)
  /\ forall p, is_Some (tmpfs st !! p) -> is_Some (tmpfs st' !! p).

(** ** The run *)

(** The days [get_all_dates] returns, as a function of the world. *)
Definition enumerated (w : World) : list string :=
  match git w DATES_QUERY with
  | Some (out, _) => filter (fun d => truthy d) (sorted_set (split LF (strip out)))
  | None => []
  end.

(** The ledger once [main] has initialised it. *)
Definition initial_ledger (force_full : bool) (l : option string) : string :=
  match l with
  | Some c => if force_full then csv_writerow HEADER else c
  | None => csv_writerow HEADER
  end.

(** The value of [last_collected] after the initialisation. *)
Definition resume_point (force_full : bool) (l : option string) : option string :=
  match l with
  | Some c => if force_full then None else last_collected_in c
  | None => None
  end.

(** ** Calendar days *)

(** A day in the [YYYY-MM-DD] format of [git log --date=short] and of the
    ledger, read as year, month and day of the month. *)
Record CalendarDay := { year : N; month : N; day_of_month : N }.

Definition digit_value (c : ascii) : N := code_point c - 48.

Definition number (digits : list ascii) : N :=
  fold_left (fun acc c => 10 * acc + digit_value c) digits 0.

Definition date_of (s : string) : option CalendarDay :=
  match s with
  | String y1 (String y2 (String y3 (String y4 (String h1
      (String m1 (String m2 (String h2 (String d1 (String d2 EmptyString))))))))) =>
      if forallb is_ascii_digit [y1; y2; y3; y4; m1; m2; d1; d2]
         && ascii_eqb h1 DASH && ascii_eqb h2 DASH
      then Some {| year := number [y1; y2; y3; y4];
                   month := number [m1; m2];
                   day_of_month := number [d1; d2] |}
      else None
  | _ => None
  end.

(** Chronological order. *)
Definition chrono_lt (a b : CalendarDay) : Prop :=
  year a < year b
  \/ (year a = year b
      /\ (month a < month b
          \/ (month a = month b /\ day_of_month a < day_of_month b))).

(** Chronological comparison, most significant part first. *)
Definition chrono_compare (a b : CalendarDay) : comparison :=
  match N.compare (year a) (year b) with
  | Eq => match N.compare (month a) (month b) with
          | Eq => N.compare (day_of_month a) (day_of_month b)
          | o => o
          end
  | o => o
  end.

(** ** Failures of the step *)

(** [git archive] did not deliver the subtree: it failed, as it does for a
    path the commit does not have, or its output is empty. *)
Definition archive_failed (w : World) (commit pathspec : string) : Prop :=
  exists out rc, git w (archive_query commit pathspec) = Some (out, rc)
                 /\ (rc <> 0%Z \/ out = EmptyString).

(** The size oracle gives no usable answer for [directory]: it cannot be
    run, or no line of its output parses. *)
Definition oracle_fails (w : World) (directory : list string) (st : State) : Prop :=
  match cloc w (tmpfs st) directory with
  | None => True
  | Some out =>
      match parse_cloc out with
      | Some (Returned _) => False
      | _ => True
      end
  end.

(** A line of the oracle's report that [run_cloc] passes over: empty, a
    header line, or with fewer than five fields. *)
Definition unusable_line (line : string) : Prop :=
  truthy line = false \/ startswith line "files" = true
  \/ (length (split COMMA line) < 5)%nat.

Definition oracle_down (w : World) : Prop :=
  forall directory st, oracle_fails w directory st.

(** The metric the simplified counter would report. *)
Definition fallback_metric (directory : list string) (st : State) : SizeMetric :=
  {| code := count_lines_simple directory st; comment := 0; blank := 0 |}.

(** ** Failures of the run *)

(** The history-listing query fails: [git] cannot be started, or it exits
    with a non-zero return code. *)
Definition history_query_fails (w : World) : Prop :=
  match git w DATES_QUERY with
  | None => True
  | Some (_, rc) => rc <> 0%Z
  end.

(** The reading of a failed history query as a fatal error. *)
Definition aborts_on_history_failure (w : World) (argv : list string) (st : State)
    : Prop :=
  history_query_fails w -> exit_code (main w argv st).1 <> 0%Z.

(** The reading of an oracle failure as a switch to the simplified counter. *)
Definition falls_back_to_simple_counter (w : World) (directory : list string)
    (st : State) : Prop :=
  path_exists directory st = true -> oracle_fails w directory st ->
  run_cloc w directory st = fallback_metric directory st.


(** ** Scenarios *)

Definition join_lines (l : list string) : string :=
  String.concat (String LF EmptyString) l.

Definition CLOC_REPORT : string :=
  join_lines ["files,language,blank,comment,code"; "1,TypeScript,1,2,30"; "1,SUM,1,2,30"].

Definition TEMP_DIR : list string := ["tmp"; "loc_history_x"].

(** Commits on two days; the commits have [src] but not [src-tauri/src]. *)
Definition two_day_world : World :=
  {| git := fun args =>
       if bool_decide (args = DATES_QUERY)
       then Some (join_lines ["2024-01-02"; "2024-01-01"; "2024-01-02"; EmptyString], 0%Z)
       else match args with
            | "log" :: _ => Some ("abc123", 0%Z)
            | ["archive"; _; _; _; "src"] => Some ("TAR", 0%Z)
            | _ => Some (EmptyString, 128%Z)
            end;
     mkdtemp := fun _ => Some TEMP_DIR;
     tar_xf := fun _ => Some [(["src"], Dir); (["src"; "a.ts"], File (Some "x = 1"))];
     cloc := fun _ _ => Some CLOC_REPORT |}.

(** Not a repository: [git] runs, prints nothing and exits with 128. *)
Definition no_repository : World :=
  {| git := fun _ => Some (EmptyString, 128%Z);
     mkdtemp := fun _ => Some TEMP_DIR;
     tar_xf := fun _ => Some [];
     cloc := fun _ _ => Some CLOC_REPORT |}.


(** As [two_day_world], without [cloc] installed. *)
Definition no_oracle_world : World :=
  {| git := git two_day_world; mkdtemp := mkdtemp two_day_world;
     tar_xf := tar_xf two_day_world; cloc := fun _ _ => None |}.

(** As [two_day_world], without [tar] installed. *)
Definition no_tar_world : World :=
  {| git := git two_day_world; mkdtemp := mkdtemp two_day_world;
     tar_xf := fun _ => None; cloc := cloc two_day_world |}.

Definition fresh : State := {| ledger := None; tmpfs := ∅ |}.

Definition first_row : LedgerRow :=
  {| day := "2024-01-01";
     stats := {| frontend := {| code := 30; comment := 2; blank := 1 |};
                 backend := zero_metric; total_code := 30 |} |}.

Definition second_row : LedgerRow :=
  {| day := "2024-01-02"; stats := stats first_row |}.

Definition resumed : State := {| ledger := Some (ledger_text [first_row]); tmpfs := ∅ |}.

Definition header_only : State := {| ledger := Some (ledger_text []); tmpfs := ∅ |}.

(** A materialised subtree with one source file of one line. *)
Definition unpacked : State :=
  {| ledger := None;
     tmpfs := <[["t"; "a.ts"] := File (Some "x = 1")]> (<[["t"] := Dir]> ∅) |}.

(** * Further vocabulary *)

(** The order on strings is decidable. *)
#[local] Instance str_lt_dec : RelDecision str_lt :=
  fun a b => decide (String.ltb a b = true).

(** ** Worlds in which a run meets no obstacle *)

(** Both history queries of a run can be started. *)
Definition log_queries_start (w : World) : Prop :=
  git w DATES_QUERY <> None
  /\ forall d, d ∈ enumerated w -> git w (commit_query d) <> None.

(** [mkdtemp] hands out a directory with nothing at or below it. *)
Definition temp_dirs_fresh (w : World) : Prop :=
  forall fs d q, mkdtemp w fs = Some d -> d `prefix_of` q -> fs !! q = None.

(** Every enumerated day resolves to a commit, and [mkdtemp], [git] and
    [tar] can always be run. *)
Definition unobstructed (w : World) : Prop :=
  (forall args, git w args <> None)
  /\ (forall d out rc, d ∈ enumerated w -> git w (commit_query d) = Some (out, rc) ->
        truthy (strip out) = true)
  /\ (forall fs, mkdtemp w fs <> None)
  /\ (forall archive, tar_xf w archive <> None)
  /\ temp_dirs_fresh w.

(** The sum that [total_code] holds. *)
Definition aggregate_ok (r : LedgerRow) : Prop :=
  total_code (stats r) = code (frontend (stats r)) + code (backend (stats r)).

(** ** Numbers and text *)





(** ** The ledger's reader in [vanity/milestones.py] *)

Definition UNDERSCORE : ascii := Ascii.ascii_of_nat 95.
Definition PLUS : ascii := Ascii.ascii_of_nat 43.

(** The digits of [int(s)]: decimal digits, with single underscores
    between digits only.  [after_digit] tells whether the previous
    character was a digit. *)
Fixpoint int_digits (acc : N) (after_digit : bool) (s : string) : option N :=
  match s with
  | EmptyString => if after_digit then Some acc else None
  | String c r =>
      if is_ascii_digit c then int_digits (10 * acc + (code_point c - 48)) true r
      else if ascii_eqb c UNDERSCORE then
        (if after_digit then int_digits acc false r else None)
      else None
  end.

(** [int(s)] for any string: surrounding white space is dropped, a sign
    may come first; [None] stands for [ValueError].  The interpreter's
    limit on the number of digits is not modelled. *)
Definition int_of_str (s : string) : option Z :=
  match strip s with
  | EmptyString => None
  | String c r =>
      if ascii_eqb c DASH then option_map (fun n => (- Z.of_N n)%Z) (int_digits 0 false r)
      else if ascii_eqb c PLUS then option_map Z.of_N (int_digits 0 false r)
      else option_map Z.of_N (int_digits 0 false (String c r))
  end.



(** ** Further scenarios *)

(** A name longer than the first component of every path in use. *)
Fixpoint long_name (n : nat) : string :=
  match n with
  | O => EmptyString
  | S n => String "x" (long_name n)
  end.

Definition longest_head (fs : gmap (list string) node) : nat :=
  foldr (fun kv acc => Nat.max (String.length (hd EmptyString kv.1)) acc) O (map_to_list fs).

(** As [two_day_world], with a [mkdtemp] that picks an unused name. *)
Definition smooth_world : World :=
  {| git := git two_day_world;
     mkdtemp := fun fs => Some [long_name (S (longest_head fs))];
     tar_xf := tar_xf two_day_world;
     cloc := cloc two_day_world |}.

Definition two_rows : State :=
  {| ledger := Some (ledger_text [first_row; second_row]); tmpfs := ∅ |}.

(** A ledger with a blank line after its last row. *)
Definition blank_tail : State :=
  {| ledger := Some (ledger_text [first_row; second_row] +:+ CRLF); tmpfs := ∅ |}.

(** An empty materialised directory. *)
Definition measured : State :=
  {| ledger := None; tmpfs := <[["t"] := Dir]> ∅ |}.

(** ** The rows of a run, day by day *)

(** The row that day [d] gets when the temporary area is [fs], if any. *)
Definition day_row (w : World) (fs : gmap (list string) node) (d : string)
    : option LedgerRow :=
  match git w (commit_query d) with
  | Some (out, _) =>
      if truthy (strip out) then
        match (collect_stats_for_commit w (strip out) {| ledger := None; tmpfs := fs |}).1 with
        | Returned (Some s) => Some {| day := d; stats := s |}
        | _ => None
        end
      else None
  | None => None
  end.

Definition rows_for (w : World) (fs : gmap (list string) node) (dates : list string)
    : list LedgerRow :=
  omap (day_row w fs) dates.

(** Two worlds that differ at most in the answer to the listing query. *)
Definition same_but_listing (w1 w2 : World) : Prop :=
  (forall args, args <> DATES_QUERY -> git w1 args = git w2 args)
  /\ (forall fs, mkdtemp w1 fs = mkdtemp w2 fs)
  /\ (forall archive, tar_xf w1 archive = tar_xf w2 archive)
  /\ (forall fs p, cloc w1 fs p = cloc w2 fs p).


(** As [smooth_world], after a commit on a third day. *)
Definition grown_world : World :=
  {| git := fun args =>
       if bool_decide (args = DATES_QUERY)
       then Some (join_lines ["2024-01-03"; "2024-01-02"; "2024-01-01"; "2024-01-02"], 0%Z)
       else git smooth_world args;
     mkdtemp := mkdtemp smooth_world;
     tar_xf := tar_xf smooth_world;
     cloc := cloc smooth_world |}.
(** * Properties *)

(** ** The primitives and the scenarios at work *)

Example strip_ex : strip "  a b
" = "a b".
Proof. reflexivity. Qed.
Example split_ex : split COMMA "a,,b" = ["a"; EmptyString; "b"].
Proof. reflexivity. Qed.
Example readlines_ex :
  readlines (decode_newlines false
               (String "a" (String CR (String LF (String "b" (String CR "c"))))))
  = [String "a" (String LF EmptyString); String "b" (String LF EmptyString); "c"].
Proof. reflexivity. Qed.
Example py_str_ex : py_str 0 = "0" /\ py_str 1203 = "1203".
Proof. split; reflexivity. Qed.
Example py_int_ex : py_int "0120" = Some 120.
Proof. reflexivity. Qed.

Example suffix_ex :
  suffix "a.b.tsx" = ".tsx" /\ suffix ".bashrc" = EmptyString
  /\ suffix "x." = EmptyString.
Proof. repeat split; reflexivity. Qed.
Example csv_ex :
  csv_writerow ["a,b"; "c"] = String DQUOTE ("a,b" +:+ String DQUOTE ",c") +:+ CRLF.
Proof. reflexivity. Qed.
Example parse_cloc_ex :
  parse_cloc (join_lines ["files,language,blank,comment,code"; "3,Vue,5,6,70";
                          "4,SUM,8,9,100"])
  = Some (Returned {| code := 100; comment := 9; blank := 8 |}).
Proof. reflexivity. Qed.

(** ** Text lemmas *)

#[local] Arguments String.append !_ _ : simpl nomatch.

Lemma str_app_assoc (a b c : string) : (a +:+ b) +:+ c = a +:+ (b +:+ c).
Proof. induction a as [|x a IH]; simpl; [reflexivity | now rewrite IH]. Qed.

Lemma str_app_nil_r (a : string) : a +:+ EmptyString = a.
Proof. induction a as [|x a IH]; simpl; [reflexivity | now rewrite IH]. Qed.

Lemma contains_app (c : ascii) (a b : string) :
  contains c (a +:+ b) = contains c a || contains c b.
Proof.
  induction a as [|x a IH]; simpl; [reflexivity |].
  rewrite IH. now rewrite orb_assoc.
Qed.

Lemma decode_newlines_app (b : bool) (s t : string) :
  decode_newlines b (s +:+ t)
  = decode_newlines b s +:+ decode_newlines (ends_cr b s) t.
Proof.
  revert b. induction s as [|c s IH]; intros b; simpl; [reflexivity |].
  destruct (ascii_eqb c CR) eqn:Ecr.
  - simpl. now rewrite IH.
  - destruct (ascii_eqb c LF) eqn:Elf.
    + destruct b; simpl; now rewrite IH.
    + simpl. now rewrite IH.
Qed.

Lemma decode_newlines_CRLF (b : bool) (t : string) :
  decode_newlines b (CRLF +:+ t) = String LF (decode_newlines false t).
Proof. reflexivity. Qed.

(** Text without CR and LF is left alone by the decoder. *)
Lemma decode_newlines_plain (s : string) :
  contains CR s = false -> contains LF s = false ->
  decode_newlines false s = s /\ ends_cr false s = false.
Proof.
  induction s as [|c s IH]; simpl; [now split |].
  intros Hcr Hlf.
  apply orb_false_elim in Hcr as [Hc1 Hcr].
  apply orb_false_elim in Hlf as [Hc2 Hlf].
  rewrite Hc1, Hc2. destruct (IH Hcr Hlf) as [-> H2].
  split; [reflexivity |].
  destruct s; simpl in *; [reflexivity | exact H2].
Qed.

Lemma readlines_app_LF (s t : string) :
  readlines (s +:+ String LF t) = readlines (s +:+ String LF EmptyString) ++ readlines t.
Proof.
  induction s as [|c s IH]; simpl; [reflexivity |].
  destruct (ascii_eqb c LF); [now rewrite IH |].
  rewrite IH.
  destruct (readlines (s +:+ String LF EmptyString)) as [|h tl] eqn:E; [| reflexivity].
  exfalso. clear -E. induction s as [|d s IHs]; simpl in E; [discriminate |].
  destruct (ascii_eqb d LF); [discriminate |].
  destruct (readlines (s +:+ String LF EmptyString)); [auto | discriminate].
Qed.

Lemma readlines_snoc_LF_nonempty (s : string) :
  readlines (s +:+ String LF EmptyString) <> [].
Proof.
  induction s as [|d s IHs]; simpl; [discriminate |].
  destruct (ascii_eqb d LF); [discriminate |].
  destruct (readlines (s +:+ String LF EmptyString)); [auto | discriminate].
Qed.

Lemma readlines_one_line (s : string) :
  contains LF s = false ->
  readlines (s +:+ String LF EmptyString) = [s +:+ String LF EmptyString].
Proof.
  induction s as [|c s IH]; simpl; [reflexivity |].
  intros H. apply orb_false_elim in H as [Hc H].
  rewrite Hc, (IH H). reflexivity.
Qed.

Lemma rstrip_nonspace (c : ascii) (s : string) :
  py_isspace c = false -> rstrip (String c s) = String c (rstrip s).
Proof. intros H. simpl. rewrite H. now destruct (rstrip s). Qed.

Lemma rstrip_app (a s : string) :
  rstrip s <> EmptyString -> rstrip (a +:+ s) = a +:+ rstrip s.
Proof.
  intros H. induction a as [|c a IH]; simpl; [reflexivity |].
  rewrite IH. destruct (a +:+ rstrip s) eqn:E; [| reflexivity].
  destruct a; simpl in E; [contradiction | discriminate].
Qed.

Lemma split_head (sep : ascii) (a s : string) :
  contains sep a = false ->
  hd EmptyString (split sep (a +:+ String sep s)) = a.
Proof.
  induction a as [|c a IH]; simpl.
  - intros _. unfold ascii_eqb. now rewrite Ascii.eqb_refl.
  - intros H. apply orb_false_elim in H as [Hc H]. rewrite Hc.
    specialize (IH H).
    destruct (split sep (a +:+ String sep s)); simpl in *; now subst.
Qed.

(** ** The ledger file read back *)

Lemma all_chars_contains (p : ascii -> bool) (c : ascii) (s : string) :
  all_chars p s = true -> p c = false -> contains c s = false.
Proof.
  intros Hs Hc. induction s as [|x s IH]; simpl in *; [reflexivity |].
  apply andb_prop in Hs as [Hx Hs]. rewrite (IH Hs), orb_false_r.
  unfold ascii_eqb. destruct (Ascii.eqb_spec x c) as [->|]; [congruence | reflexivity].
Qed.

Lemma py_str_digits (n : N) : all_chars is_ascii_digit (py_str n) = true.
Proof.
  unfold py_str. generalize (N.to_uint n). intros d.
  induction d; simpl; auto.
Qed.

Lemma py_str_contains (c : ascii) (n : N) :
  is_ascii_digit c = false -> contains c (py_str n) = false.
Proof. intros H. eapply all_chars_contains; [apply py_str_digits | exact H]. Qed.

Lemma csv_field_py_str (n : N) : csv_field (py_str n) = py_str n.
Proof.
  unfold csv_field, needs_quote.
  now rewrite !py_str_contains by reflexivity.
Qed.

Lemma plain_day_spec (d : string) :
  plain_day d = true ->
  csv_field d = d /\ contains COMMA d = false /\ contains CR d = false
  /\ contains LF d = false /\ lstrip (d +:+ String COMMA EmptyString) = d +:+ String COMMA EmptyString.
Proof.
  unfold plain_day, csv_field, needs_quote. intros H.
  apply andb_prop in H as [H1 H2].
  apply negb_true_iff in H1. rewrite H1.
  apply orb_false_elim in H1 as [H1 Hlf].
  apply orb_false_elim in H1 as [H1 Hcr].
  apply orb_false_elim in H1 as [Hco _].
  repeat split; try assumption.
  destruct d as [|c d]; [reflexivity |].
  simpl. apply negb_true_iff in H2. now rewrite H2.
Qed.

Lemma row_tail_contains (c : ascii) (s : Stats) :
  is_ascii_digit c = false -> ascii_eqb COMMA c = false ->
  contains c (row_tail s) = false.
Proof.
  intros Hd Hc. unfold row_tail.
  generalize [code (frontend s); comment (frontend s); blank (frontend s);
     code (backend s); comment (backend s); blank (backend s); total_code s].
  intros l. induction l as [|n l IH]; [reflexivity |].
  destruct l as [|n' l].
  - apply py_str_contains, Hd.
  - change (join_fields (map py_str (n :: n' :: l)))
      with (py_str n +:+ String COMMA (join_fields (map py_str (n' :: l)))).
    rewrite contains_app, py_str_contains by exact Hd.
    cbn [contains orb]. now rewrite Hc, IH.
Qed.

Lemma csv_writerow_row (d : string) (s : Stats) :
  plain_day d = true ->
  csv_writerow (row_cells d s) = (d +:+ String COMMA (row_tail s)) +:+ CRLF.
Proof.
  intros H. destruct (plain_day_spec d H) as [Hf _].
  unfold csv_writerow, row_cells, row_tail. simpl.
  now rewrite Hf, !csv_field_py_str.
Qed.

Lemma lstrip_app_nonspace (d t : string) :
  lstrip (d +:+ String COMMA EmptyString) = d +:+ String COMMA EmptyString ->
  lstrip (d +:+ String COMMA t) = d +:+ String COMMA t.
Proof.
  destruct d as [|c d]; simpl; [reflexivity |].
  destruct (py_isspace c) eqn:E; [| reflexivity].
  intros H. exfalso.
  assert (Hlen : forall u, (String.length (lstrip u) <= String.length u)%nat).
  { induction u as [|x u IHu]; simpl; [lia |]. destruct (py_isspace x); simpl; lia. }
  specialize (Hlen (d +:+ String COMMA EmptyString)). rewrite H in Hlen. simpl in Hlen. lia.
Qed.

(** Reading back a file that ends with a line for day [d]. *)
Lemma last_collected_in_snoc (p0 d t : string) :
  plain_day d = true -> contains CR t = false -> contains LF t = false ->
  last_collected_in ((p0 +:+ CRLF) +:+ ((d +:+ String COMMA t) +:+ CRLF)) = Some d.
Proof.
  intros Hd Hcr Hlf.
  destruct (plain_day_spec d Hd) as (_ & Hco & Hdcr & Hdlf & Hls).
  assert (Hb : decode_newlines false (d +:+ String COMMA t) = d +:+ String COMMA t
               /\ ends_cr false (d +:+ String COMMA t) = false).
  { apply decode_newlines_plain; rewrite contains_app; simpl.
    - now rewrite Hdcr, Hcr.
    - now rewrite Hdlf, Hlf. }
  destruct Hb as [Hb1 Hb2].
  unfold last_collected_in.
  rewrite (str_app_assoc p0), decode_newlines_app, decode_newlines_CRLF.
  rewrite decode_newlines_app, Hb1, Hb2.
  change (decode_newlines false CRLF) with (String LF EmptyString).
  rewrite readlines_app_LF, (readlines_one_line (d +:+ String COMMA t))
    by (rewrite contains_app; simpl; now rewrite Hdlf, Hlf).
  pose proof (readlines_snoc_LF_nonempty (decode_newlines false p0)) as Hne.
  destruct (readlines (decode_newlines false p0 +:+ String LF EmptyString))
    as [|l0 ls] eqn:El; [contradiction |].
  rewrite bool_decide_eq_true_2 by (rewrite length_app; simpl; lia).
  rewrite last_last.
  assert (Hstrip : strip ((d +:+ String COMMA t) +:+ String LF EmptyString)
                   = d +:+ String COMMA (rstrip (t +:+ String LF EmptyString))).
  { unfold strip. rewrite str_app_assoc.
    change (String COMMA t +:+ String LF EmptyString)
      with (String COMMA (t +:+ String LF EmptyString)).
    rewrite (lstrip_app_nonspace d _ Hls).
    rewrite rstrip_app by (rewrite rstrip_nonspace by reflexivity; discriminate).
    now rewrite rstrip_nonspace by reflexivity. }
  rewrite Hstrip, split_head by exact Hco.
  destruct d; reflexivity.
Qed.

Lemma rows_text_app (r1 r2 : list LedgerRow) :
  rows_text (r1 ++ r2) = rows_text r1 +:+ rows_text r2.
Proof.
  induction r1 as [|r r1 IH]; simpl; [reflexivity |].
  now rewrite IH, str_app_assoc.
Qed.

Lemma ledger_text_app (r1 r2 : list LedgerRow) :
  ledger_text (r1 ++ r2) = ledger_text r1 +:+ rows_text r2.
Proof. unfold ledger_text. now rewrite rows_text_app, str_app_assoc. Qed.

(** Every ledger file ends with a complete, CR LF terminated line. *)
Lemma ledger_text_ends_CRLF (rows : list LedgerRow) :
  exists p0, ledger_text rows = p0 +:+ CRLF.
Proof.
  induction rows as [|r rows IH] using rev_ind.
  - eexists. unfold ledger_text, csv_writerow. simpl rows_text.
    rewrite str_app_nil_r. reflexivity.
  - destruct IH as [p0 Hp]. rewrite ledger_text_app. simpl rows_text.
    rewrite str_app_nil_r. unfold row_text, csv_writerow.
    eexists. rewrite <- str_app_assoc. reflexivity.
Qed.

Lemma last_collected_header : last_collected_in (ledger_text []) = None.
Proof. reflexivity. Qed.

Lemma last_collected_empty_file : last_collected_in EmptyString = None.
Proof. reflexivity. Qed.

(** [get_last_collected_date] finds the day of the last row. *)
Lemma last_collected_ledger (rows : list LedgerRow) (r : LedgerRow) :
  plain_day (day r) = true ->
  last_collected_in (ledger_text (rows ++ [r])) = Some (day r).
Proof.
  intros Hd. rewrite ledger_text_app. simpl rows_text. rewrite str_app_nil_r.
  destruct (ledger_text_ends_CRLF rows) as [p0 ->].
  unfold row_text. rewrite csv_writerow_row by exact Hd.
  apply last_collected_in_snoc; [exact Hd | |];
    apply row_tail_contains; reflexivity.
Qed.

(** ** The string order *)

Lemma str_lt_iff (a b : string) : str_lt a b <-> String.le a b /\ a <> b.
Proof.
  unfold str_lt, String.le, String.ltb, String.leb.
  destruct (String.compare a b) eqn:E; simpl.
  - apply String.compare_eq_iff in E.
    split; [discriminate | intros [_ H]; contradiction].
  - split; [| reflexivity]. intros _. split; [exact I |]. intros ->.
    pose proof (String.compare_antisym b b) as H. rewrite E in H. discriminate.
  - split; [discriminate | intros [[] _]].
Qed.

#[local] Instance str_lt_trans : Transitive str_lt.
Proof.
  intros a b c Hab Hbc. apply str_lt_iff in Hab as [H1 N1], Hbc as [H2 N2].
  apply str_lt_iff. split; [etrans; eassumption |].
  intros ->. apply N1. now apply (anti_symm String.le).
Qed.

Lemma str_lt_irrefl (a : string) : ~ str_lt a a.
Proof. intros H. apply str_lt_iff in H as [_ H]. now apply H. Qed.


(** Every string is above the empty string, except the empty string. *)
Lemma str_lt_empty (d : string) : truthy d = true -> str_lt EmptyString d.
Proof. destruct d; [discriminate | reflexivity]. Qed.

Lemma StronglySorted_sublist {A} (R : relation A) (l k : list A) :
  l `sublist_of` k -> StronglySorted R k -> StronglySorted R l.
Proof.
  intros Hs. induction Hs as [|x l k Hs IH|x l k Hs IH]; intros Hk.
  - constructor.
  - apply StronglySorted_inv in Hk as [Hk Hx]. constructor; [auto |].
    eapply Forall_forall. intros y Hy. eapply Forall_forall in Hx; [exact Hx |].
    now apply (sublist_subseteq _ _ Hs).
  - apply StronglySorted_inv in Hk as [Hk _]. auto.
Qed.

(** [sorted(set(xs))] is strictly ascending and has the elements of [xs]. *)
Lemma sorted_set_sorted (xs : list string) : StronglySorted str_lt (sorted_set xs).
Proof.
  unfold sorted_set.
  assert (Hnd : NoDup (merge_sort String.le (remove_dups xs))).
  { rewrite merge_sort_Permutation. apply NoDup_remove_dups. }
  pose proof (StronglySorted_merge_sort String.le (remove_dups xs)) as Hs.
  induction Hs as [|x l Hs IH Hx]; [constructor |].
  apply NoDup_cons in Hnd as [Hnx Hnd].
  constructor; [auto |].
  eapply Forall_forall. intros y Hy. apply str_lt_iff. split.
  - eapply Forall_forall in Hx; eauto.
  - intros ->. contradiction.
Qed.

Lemma sorted_set_elem (xs : list string) (x : string) : x ∈ sorted_set xs <-> x ∈ xs.
Proof.
  unfold sorted_set. rewrite merge_sort_Permutation. apply elem_of_remove_dups.
Qed.

(** ** The per-commit step *)

Lemma rmtree_outside (d : list string) (st : State) :
  tmpfs (rmtree d st) = outside d (tmpfs st).
Proof. reflexivity. Qed.

Lemma outside_lookup_under (d q : list string) (fs : gmap (list string) node) :
  d `prefix_of` q -> outside d fs !! q = None.
Proof.
  intros Hp. unfold outside. apply map_lookup_filter_None. right.
  intros x _ Hn. simpl in Hn. contradiction.
Qed.

Lemma outside_insert_under (d q : list string) (n : node) (fs : gmap (list string) node) :
  d `prefix_of` q -> outside d (<[q := n]> fs) = outside d fs.
Proof.
  intros Hp. unfold outside. apply map_filter_insert_not.
  intros y Hn. simpl in Hn. contradiction.
Qed.

Lemma outside_unpack (d cwd : list string) (entries : list (list string * node))
    (fs : gmap (list string) node) :
  d `prefix_of` cwd -> outside d (unpack cwd entries fs) = outside d fs.
Proof.
  intros Hp. induction entries as [|e entries IH]; simpl; [reflexivity |].
  rewrite outside_insert_under; [exact IH |].
  etrans; [exact Hp | apply prefix_app_r; reflexivity].
Qed.

Lemma unpack_is_Some (cwd p : list string) (entries : list (list string * node))
    (fs : gmap (list string) node) :
  is_Some (fs !! p) -> is_Some (unpack cwd entries fs !! p).
Proof.
  intros H. induction entries as [|e entries IH]; simpl; [exact H |].
  apply lookup_insert_is_Some'. now right.
Qed.

Lemma extends_under_refl (d : list string) (st : State) : extends_under d st st.
Proof. repeat split; auto. Qed.

Lemma extends_under_trans (d : list string) (a b c : State) :
  extends_under d a b -> extends_under d b c -> extends_under d a c.
Proof.
  intros (L1 & O1 & S1) (L2 & O2 & S2). repeat split.
  - congruence.
  - congruence.
  - auto.
Qed.

Section Step.

Variable w : World.

Lemma mkdir_extends (d p : list string) (st : State) :
  d `prefix_of` p -> extends_under d st (mkdir p st).2.
Proof.
  intros Hp. unfold mkdir.
  destruct (path_exists p st); [apply extends_under_refl |].
  destruct (tmpfs st !! removelast p) as [[|]|]; try apply extends_under_refl.
  simpl. repeat split.
  - now apply outside_insert_under.
  - intros q Hq. apply lookup_insert_is_Some'. now right.
Qed.

Lemma mkdir_raised_state (p : list string) (st st' : State) :
  mkdir p st = (Raised, st') -> st' = st.
Proof.
  unfold mkdir. destruct (path_exists p st); [congruence |].
  destruct (tmpfs st !! removelast p) as [[|]|]; congruence.
Qed.

Lemma measure_subtree_extends (commit : string) (temp_dir : list string) (name : string)
    (tracked : list string) (pathspec : string) (st : State) :
  extends_under temp_dir st
    (measure_subtree w commit temp_dir name tracked pathspec st).2.
Proof.
  unfold measure_subtree.
  destruct (git w _) as [[out rc]|]; [| apply extends_under_refl].
  destruct ((rc =? 0)%Z && truthy out); [| apply extends_under_refl].
  pose proof (mkdir_extends temp_dir (temp_dir ++ [name]) st
                (prefix_app_r _ _ _ (reflexivity _))) as Hm.
  destruct (mkdir (temp_dir ++ [name]) st) as [[[]|] st1]; simpl in Hm; [| exact Hm].
  destruct (tar_xf w out) as [entries|]; [| exact Hm].
  assert (He : extends_under temp_dir st
                 (set_tmpfs (unpack (temp_dir ++ [name]) entries (tmpfs st1)) st1)).
  { eapply extends_under_trans; [exact Hm |]. repeat split; simpl.
    - apply outside_unpack, prefix_app_r. reflexivity.
    - intros p. apply unpack_is_Some. }
  destruct (path_exists _ _); exact He.
Qed.

Lemma measure_commit_extends (commit : string) (temp_dir : list string) (st : State) :
  extends_under temp_dir st (measure_commit w commit temp_dir st).2.
Proof.
  unfold measure_commit, bind.
  pose proof (measure_subtree_extends commit temp_dir "frontend" ["src"] "src" st) as H1.
  destruct (measure_subtree w commit temp_dir "frontend" ["src"] "src" st)
    as [[f|] st1]; simpl in H1; [| exact H1].
  pose proof (measure_subtree_extends commit temp_dir "backend"
                ["src-tauri"; "src"] "src-tauri/src" st1) as H2.
  destruct (measure_subtree w commit temp_dir "backend" _ _ st1)
    as [[b|] st2]; simpl in *; eapply extends_under_trans; eauto.
Qed.

(** The state after [collect_stats_for_commit]: the tree of [temp_dir] is
    gone, the rest is as before. *)
Lemma collect_stats_state (commit : string) (st : State) :
  let r := collect_stats_for_commit w commit st in
  (exists v, r.1 = Returned v)
  /\ ledger r.2 = ledger st
  /\ match mkdtemp w (tmpfs st) with
     | Some temp_dir => tmpfs r.2 = outside temp_dir (tmpfs st)
     | None => tmpfs r.2 = tmpfs st
     end.
Proof.
  unfold collect_stats_for_commit.
  destruct (mkdtemp w (tmpfs st)) as [temp_dir|]; [| simpl; eauto].
  set (st1 := with_temp_dir temp_dir st).
  unfold try_finally, try_except, bind.
  pose proof (measure_commit_extends commit temp_dir st1) as (L & O & S).
  assert (Hex : forall st2, is_Some (tmpfs st2 !! temp_dir) ->
                  cleanup temp_dir st2 = rmtree temp_dir st2).
  { intros st2 H2. unfold cleanup, path_exists. now rewrite bool_decide_eq_true_2. }
  assert (H1 : is_Some (tmpfs st1 !! temp_dir))
    by (unfold st1, with_temp_dir; simpl; rewrite lookup_insert_eq; eauto).
  assert (O1 : outside temp_dir (tmpfs st1) = outside temp_dir (tmpfs st))
    by (now apply outside_insert_under).
  destruct (measure_commit w commit temp_dir st1) as [[s|] st2]; simpl in *;
    (rewrite Hex by auto; split; [eauto |]; split; [exact L |];
     now rewrite rmtree_outside, O, O1).
Qed.

End Step.

(** ** The driver *)

Section Driver.

Variable w : World.

Lemma get_all_dates_run (st : State) :
  get_all_dates w st
  = match git w DATES_QUERY with
    | Some _ => (Returned (enumerated w), st)
    | None => (Raised, st)
    end.
Proof.
  unfold get_all_dates, enumerated, bind, run_git, ret.
  destruct (git w DATES_QUERY) as [[out rc]|]; reflexivity.
Qed.

Lemma enumerated_sorted : StronglySorted str_lt (enumerated w).
Proof.
  unfold enumerated. destruct (git w DATES_QUERY) as [[out rc]|]; [| constructor].
  eapply StronglySorted_sublist; [apply sublist_filter | apply sorted_set_sorted].
Qed.

Lemma enumerated_truthy (d : string) : d ∈ enumerated w -> truthy d = true.
Proof.
  unfold enumerated. destruct (git w DATES_QUERY) as [[out rc]|].
  - intros H. apply list_elem_of_filter in H as [H _]. now apply Is_true_true.
  - intros H. inversion H.
Qed.

Lemma get_commit_for_date_run (date : string) (st : State) :
  get_commit_for_date w date st
  = match git w (commit_query date) with
    | Some (out, _) =>
        (Returned (if truthy (strip out) then Some (strip out) else None), st)
    | None => (Raised, st)
    end.
Proof.
  unfold get_commit_for_date, bind, run_git, ret.
  destruct (git w (commit_query date)) as [[out rc]|]; reflexivity.
Qed.

(** One day either leaves the ledger alone or appends the day's row. *)
Lemma collect_day_ledger (date c : string) (st : State) :
  ledger st = Some c ->
  let st' := (collect_day w date st).2 in
  ledger st' = Some c
  \/ exists s, ledger st' = Some (c +:+ row_text {| day := date; stats := s |}).
Proof.
  intros Hl. unfold collect_day, bind. rewrite get_commit_for_date_run.
  destruct (git w (commit_query date)) as [[out rc]|]; simpl; [| now left].
  destruct (truthy (strip out)); simpl; [| now left].
  pose proof (collect_stats_state w (strip out) st) as ([v Hv] & L & _).
  destruct (collect_stats_for_commit w (strip out) st) as [[[s|]|] st1];
    simpl in *; try (left; congruence).
  right. exists s. now rewrite L, Hl.
Qed.

(** The rows of a run are appended in the order of the days processed. *)
Lemma collect_loop_ledger (dates : list string) (c : string) (st : State) :
  ledger st = Some c ->
  exists rows, map day rows `sublist_of` dates
    /\ ledger (collect_loop w dates st).2 = Some (c +:+ rows_text rows).
Proof.
  revert c st. induction dates as [|d dates IH]; intros c st Hl.
  - exists []. simpl. rewrite str_app_nil_r. split; [constructor | exact Hl].
  - simpl. unfold bind.
    pose proof (collect_day_ledger d c st Hl) as Hd.
    destruct (collect_day w d st) as [[[]|] st1]; simpl in Hd.
    + destruct Hd as [Hd | [s Hd]].
      * destruct (IH _ _ Hd) as (rows & Hs & Hr).
        exists rows. split; [now apply sublist_cons | exact Hr].
      * destruct (IH _ _ Hd) as (rows & Hs & Hr).
        exists ({| day := d; stats := s |} :: rows). split.
        -- simpl. now apply sublist_skip.
        -- rewrite Hr. simpl. now rewrite str_app_assoc.
    + destruct Hd as [Hd | [s Hd]].
      * exists []. simpl. rewrite str_app_nil_r. split; [apply sublist_nil_l | exact Hd].
      * exists [{| day := d; stats := s |}]. simpl. rewrite str_app_nil_r.
        split; [apply sublist_skip, sublist_nil_l | exact Hd].
Qed.

Lemma set_ledger_same (c : string) (st : State) :
  ledger st = Some c -> set_ledger (Some c) st = st.
Proof. destruct st as [l fs]. simpl. now intros ->. Qed.

(** [main] is the loop over the days past the resume point, run on the
    initialised ledger. *)
Lemma main_run (argv : list string) (st : State) :
  let force_full := bool_decide ("--full" ∈ argv) in
  let st0 := set_ledger (Some (initial_ledger force_full (ledger st))) st in
  main w argv st
  = match git w DATES_QUERY with
    | Some _ =>
        collect_loop w
          (dates_to_collect (resume_point force_full (ledger st)) (enumerated w)) st0
    | None => (Raised, st0)
    end.
Proof.
  intros force_full st0. subst st0. unfold main. fold force_full.
  assert (Hloop : forall dates s,
            (if bool_decide (dates = []) then ret tt else collect_loop w dates) s
            = collect_loop w dates s).
  { intros dates s. case_bool_decide as E; [now rewrite E | reflexivity]. }
  unfold bind at 1 2. unfold initial_ledger, resume_point.
  destruct force_full; simpl.
  - unfold ret at 1. rewrite orb_true_r. unfold bind at 1, write_header, ret at 1.
    unfold bind. rewrite get_all_dates_run.
    destruct (ledger st), (git w DATES_QUERY); try reflexivity; apply Hloop.
  - unfold get_last_collected_date.
    destruct (ledger st) as [c|] eqn:El; simpl.
    + rewrite El, bool_decide_eq_true_2 by eauto. simpl. unfold ret at 1.
      unfold bind. rewrite get_all_dates_run, (set_ledger_same c st El).
      destruct (git w DATES_QUERY); [apply Hloop | reflexivity].
    + rewrite El, bool_decide_eq_false_2 by (intros [? ?]; discriminate). simpl.
      unfold bind at 1, write_header, ret at 1. unfold bind.
      rewrite get_all_dates_run.
      destruct (git w DATES_QUERY); [apply Hloop | reflexivity].
Qed.

End Driver.

Example date_of_ex :
  date_of "2024-02-29" = Some {| year := 2024; month := 2; day_of_month := 29 |}
  /\ date_of "2024-2-29" = None.
Proof. split; reflexivity. Qed.

(** ** Calendar days *)

Lemma digit_compare (a b : ascii) :
  is_ascii_digit a = true -> is_ascii_digit b = true ->
  Ascii.compare a b = N.compare (digit_value a) (digit_value b)
  /\ digit_value a <= 9 /\ digit_value b <= 9.
Proof.
  unfold is_ascii_digit, Ascii.compare, digit_value, code_point.
  intros Ha Hb.
  apply andb_prop in Ha as [Ha1 Ha2]. apply andb_prop in Hb as [Hb1 Hb2].
  apply N.leb_le in Ha1, Ha2, Hb1, Hb2.
  split; [| lia].
  destruct (N.compare_spec (N_of_ascii a) (N_of_ascii b)) as [E|E|E];
    symmetry; [apply N.compare_eq_iff | apply N.compare_lt_iff | apply N.compare_gt_iff]; lia.
Qed.

Lemma digit_value_inj (a b : ascii) :
  is_ascii_digit a = true -> is_ascii_digit b = true ->
  digit_value a = digit_value b -> a = b.
Proof.
  unfold is_ascii_digit, digit_value, code_point. intros Ha Hb E.
  apply andb_prop in Ha as [Ha1 Ha2]. apply andb_prop in Hb as [Hb1 Hb2].
  apply N.leb_le in Ha1, Ha2, Hb1, Hb2.
  rewrite <- (ascii_N_embedding a), <- (ascii_N_embedding b). f_equal. lia.
Qed.

Lemma ascii_eqb_true (a b : ascii) : ascii_eqb a b = true -> a = b.
Proof. unfold ascii_eqb. now destruct (Ascii.eqb_spec a b). Qed.

(** The shape of a well-formed day. *)
Lemma date_of_inv (s : string) (d : CalendarDay) :
  date_of s = Some d ->
  exists y1 y2 y3 y4 m1 m2 d1 d2,
    s = String y1 (String y2 (String y3 (String y4 (String DASH
          (String m1 (String m2 (String DASH (String d1 (String d2 EmptyString)))))))))
    /\ Forall (fun c => is_ascii_digit c = true) [y1; y2; y3; y4; m1; m2; d1; d2]
    /\ d = {| year := number [y1; y2; y3; y4]; month := number [m1; m2];
              day_of_month := number [d1; d2] |}.
Proof.
  destruct s as [|y1 [|y2 [|y3 [|y4 [|h1 [|m1 [|m2 [|h2 [|d1 [|d2 [|]]]]]]]]]]];
    try discriminate.
  unfold date_of.
  destruct (forallb _ _ && _ && _) eqn:E; [| discriminate].
  intros [= <-].
  apply andb_prop in E as [E H2]. apply andb_prop in E as [E H1].
  apply ascii_eqb_true in H1, H2. subst h1 h2.
  exists y1, y2, y3, y4, m1, m2, d1, d2.
  split; [reflexivity |]. split; [| reflexivity].
  apply Forall_forall. intros c Hc. apply list_elem_of_In in Hc.
  eapply forallb_forall in E; eauto.
Qed.

Lemma chrono_compare_Lt (a b : CalendarDay) :
  chrono_compare a b = Lt <-> chrono_lt a b.
Proof.
  unfold chrono_compare, chrono_lt.
  destruct (N.compare_spec (year a) (year b));
    destruct (N.compare_spec (month a) (month b));
    destruct (N.compare_spec (day_of_month a) (day_of_month b));
    split; intros; try discriminate; try reflexivity; lia.
Qed.


Ltac close_compare :=
  repeat first
    [ rewrite N.compare_refl
    | rewrite (proj2 (N.compare_lt_iff _ _)) by lia
    | rewrite (proj2 (N.compare_gt_iff _ _)) by lia ];
  reflexivity.

Ltac compare_digits :=
  lazymatch goal with
  | |- context [N.compare (digit_value ?a) (digit_value ?b)] =>
      let E := fresh "E" in
      destruct (N.compare_spec (digit_value a) (digit_value b)) as [E|E|E];
      [ rewrite E in *; compare_digits | close_compare | close_compare ]
  | |- _ => close_compare
  end.

(** On well-formed days the string comparison is the chronological one. *)
Lemma date_compare (a b : string) (da db : CalendarDay) :
  date_of a = Some da -> date_of b = Some db ->
  String.compare a b = chrono_compare da db.
Proof.
  intros Ha Hb.
  apply date_of_inv in Ha as (y1 & y2 & y3 & y4 & m1 & m2 & d1 & d2 & -> & Fa & ->).
  apply date_of_inv in Hb as (z1 & z2 & z3 & z4 & n1 & n2 & e1 & e2 & -> & Fb & ->).
  repeat match goal with
         | H : Forall _ (_ :: _) |- _ => apply Forall_cons in H as [? H]
         end.
  pose proof (digit_compare y1 z1) as (C1 & ? & ?); [assumption.. |].
  pose proof (digit_compare y2 z2) as (C2 & ? & ?); [assumption.. |].
  pose proof (digit_compare y3 z3) as (C3 & ? & ?); [assumption.. |].
  pose proof (digit_compare y4 z4) as (C4 & ? & ?); [assumption.. |].
  pose proof (digit_compare m1 n1) as (C5 & ? & ?); [assumption.. |].
  pose proof (digit_compare m2 n2) as (C6 & ? & ?); [assumption.. |].
  pose proof (digit_compare d1 e1) as (C7 & ? & ?); [assumption.. |].
  pose proof (digit_compare d2 e2) as (C8 & ? & ?); [assumption.. |].
  cbn [String.compare]. rewrite C1, C2, C3, C4, C5, C6, C7, C8.
  change (Ascii.compare DASH DASH) with Eq.
  unfold chrono_compare, number. cbn [fold_left year month day_of_month].
  clear C1 C2 C3 C4 C5 C6 C7 C8.
  compare_digits.
Qed.

Lemma date_str_lt (a b : string) (da db : CalendarDay) :
  date_of a = Some da -> date_of b = Some db ->
  (str_lt a b <-> chrono_lt da db).
Proof.
  intros Ha Hb. rewrite <- chrono_compare_Lt, <- (date_compare a b da db Ha Hb).
  unfold str_lt, String.ltb. destruct (String.compare a b); split; congruence.
Qed.


Lemma digit_char_plain (c : ascii) :
  is_ascii_digit c = true ->
  ascii_eqb c COMMA = false /\ ascii_eqb c DQUOTE = false
  /\ ascii_eqb c CR = false /\ ascii_eqb c LF = false /\ py_isspace c = false.
Proof.
  destruct c as [[] [] [] [] [] [] [] []]; vm_compute; intros H;
    first [discriminate H | repeat split].
Qed.

(** A well-formed day is written and read back unchanged. *)
Lemma date_plain (s : string) (d : CalendarDay) :
  date_of s = Some d -> plain_day s = true.
Proof.
  intros H.
  apply date_of_inv in H as (y1 & y2 & y3 & y4 & m1 & m2 & d1 & d2 & -> & F & _).
  repeat match goal with
         | H : Forall _ (_ :: _) |- _ => apply Forall_cons in H as [? H]
         end.
  repeat match goal with
         | H : is_ascii_digit ?c = true |- _ =>
             destruct (digit_char_plain c H) as (? & ? & ? & ? & ?); clear H
         end.
  unfold plain_day, needs_quote. cbn [contains].
  change (ascii_eqb DASH COMMA) with false. change (ascii_eqb DASH DQUOTE) with false.
  change (ascii_eqb DASH CR) with false. change (ascii_eqb DASH LF) with false.
  repeat match goal with
         | H : _ = false |- _ => rewrite H; clear H
         end.
  reflexivity.
Qed.

Lemma date_truthy (s : string) (d : CalendarDay) : date_of s = Some d -> truthy s = true.
Proof. destruct s; [discriminate | reflexivity]. Qed.

(** ** Results of the per-commit step *)

Section StepResults.

Variable w : World.

Lemma run_cloc_oracle_fails (directory : list string) (st : State) :
  oracle_fails w directory st -> run_cloc w directory st = zero_metric.
Proof.
  unfold oracle_fails, run_cloc. intros H.
  destruct (negb (path_exists directory st)); [reflexivity |].
  destruct (cloc w (tmpfs st) directory) as [out|]; [| reflexivity].
  destruct (parse_cloc out) as [[m|]|]; [contradiction | reflexivity..].
Qed.

Lemma measure_subtree_archive_failed (commit : string) (temp_dir : list string)
    (name : string) (tracked : list string) (pathspec : string) (st : State) :
  archive_failed w commit pathspec ->
  measure_subtree w commit temp_dir name tracked pathspec st = (Returned zero_metric, st).
Proof.
  intros (out & rc & Hg & Hf). unfold measure_subtree. rewrite Hg.
  destruct Hf as [Hrc | ->].
  - apply Z.eqb_neq in Hrc. now rewrite Hrc.
  - now rewrite andb_false_r.
Qed.

Lemma measure_subtree_oracle_down (commit : string) (temp_dir : list string)
    (name : string) (tracked : list string) (pathspec : string) (st : State) (m : SizeMetric) :
  oracle_down w ->
  (measure_subtree w commit temp_dir name tracked pathspec st).1 = Returned m ->
  m = zero_metric.
Proof.
  intros Ho. unfold measure_subtree.
  destruct (git w _) as [[out rc]|]; [| discriminate].
  destruct ((rc =? 0)%Z && truthy out); [| now intros [= <-]].
  destruct (mkdir _ st) as [[[]|] st1]; [| discriminate].
  destruct (tar_xf w out) as [entries|]; [| discriminate].
  destruct (path_exists _ _); simpl; intros [= <-]; [| reflexivity].
  apply run_cloc_oracle_fails, Ho.
Qed.

(** The step in terms of its two extraction blocks. *)
Lemma collect_stats_result (commit : string) (st : State) (temp_dir : list string) :
  mkdtemp w (tmpfs st) = Some temp_dir ->
  (collect_stats_for_commit w commit st).1
  = Returned
      match measure_subtree w commit temp_dir "frontend" ["src"] "src"
              (with_temp_dir temp_dir st) with
      | (Returned f, st2) =>
          match (measure_subtree w commit temp_dir "backend" ["src-tauri"; "src"]
                   "src-tauri/src" st2).1 with
          | Returned b =>
              Some {| frontend := f; backend := b; total_code := code f + code b |}
          | Raised => None
          end
      | (Raised, _) => None
      end.
Proof.
  intros Hm. unfold collect_stats_for_commit. rewrite Hm.
  unfold try_finally, try_except, measure_commit, bind, ret, with_temp_dir.
  destruct (measure_subtree w commit temp_dir "frontend" _ _ _) as [[f|] st2];
    [| reflexivity].
  destruct (measure_subtree w commit temp_dir "backend" _ _ st2) as [[b|] st3];
    reflexivity.
Qed.

Lemma collect_stats_no_temp_dir (commit : string) (st : State) :
  mkdtemp w (tmpfs st) = None ->
  collect_stats_for_commit w commit st = (Returned None, st).
Proof. intros Hm. unfold collect_stats_for_commit. now rewrite Hm. Qed.

(** Every row the step assembles has the aggregate of its two subtrees,
    and a zero metric for a subtree that was not delivered or measured. *)
Lemma collect_stats_some (commit : string) (st : State) (s : Stats) :
  (collect_stats_for_commit w commit st).1 = Returned (Some s) ->
  total_code s = code (frontend s) + code (backend s)
  /\ (archive_failed w commit "src" -> frontend s = zero_metric)
  /\ (archive_failed w commit "src-tauri/src" -> backend s = zero_metric)
  /\ (oracle_down w -> frontend s = zero_metric /\ backend s = zero_metric).
Proof.
  destruct (mkdtemp w (tmpfs st)) as [temp_dir|] eqn:Hm.
  2:{ rewrite collect_stats_no_temp_dir by exact Hm. discriminate. }
  rewrite (collect_stats_result commit st temp_dir Hm).
  destruct (measure_subtree w commit temp_dir "frontend" _ _ _) as [[f|] st2] eqn:Ef;
    [| discriminate].
  destruct (measure_subtree w commit temp_dir "backend" _ _ st2) as [[b|] st3] eqn:Eb;
    [| discriminate].
  simpl. intros [= <-]. simpl. split; [reflexivity |]. repeat split.
  - intros Ha. rewrite measure_subtree_archive_failed in Ef by exact Ha. congruence.
  - intros Ha. rewrite measure_subtree_archive_failed in Eb by exact Ha. congruence.
  - eapply measure_subtree_oracle_down; [eassumption |]. now rewrite Ef.
  - eapply measure_subtree_oracle_down; [eassumption |]. now rewrite Eb.
Qed.

End StepResults.

(** ** Resume logic *)

Section Resume.

Variable w : World.

(** The days that pass the resume filter are the enumerated days above the
    last collected one. *)
Lemma dates_to_collect_spec (l d : string) :
  d ∈ dates_to_collect (Some l) (enumerated w) ->
  d ∈ enumerated w /\ str_lt l d.
Proof.
  unfold dates_to_collect. intros H. apply list_elem_of_filter in H as [Hc Hin].
  split; [exact Hin |].
  apply Is_true_true in Hc. simpl in Hc. apply orb_prop in Hc as [Hc | Hc].
  - destruct l; [| discriminate]. apply str_lt_empty. now apply (enumerated_truthy w).
  - exact Hc.
Qed.

Lemma dates_to_collect_none (all_dates : list string) :
  dates_to_collect None all_dates = all_dates.
Proof.
  unfold dates_to_collect. induction all_dates as [|d l IH]; [reflexivity |].
  rewrite filter_cons_True by exact I. now rewrite IH.
Qed.

Lemma dates_to_collect_sorted (last : option string) :
  StronglySorted str_lt (dates_to_collect last (enumerated w)).
Proof.
  eapply StronglySorted_sublist; [apply sublist_filter | apply enumerated_sorted].
Qed.

(** The rows appended by a run, for a ledger that [main] leaves in place. *)
Lemma main_appends (argv : list string) (st : State) :
  let force_full := bool_decide ("--full" ∈ argv) in
  exists new,
    ledger (main w argv st).2
    = Some (initial_ledger force_full (ledger st) +:+ rows_text new)
    /\ map day new
       `sublist_of` dates_to_collect (resume_point force_full (ledger st)) (enumerated w).
Proof.
  intros force_full. rewrite main_run. fold force_full.
  destruct (git w DATES_QUERY).
  - edestruct (collect_loop_ledger w) as (new & Hs & Hl); [| exists new; split; eauto].
    reflexivity.
  - exists []. simpl. rewrite str_app_nil_r. split; [reflexivity | apply sublist_nil_l].
Qed.

End Resume.

(** C1 (resume correctness).  A run without [--full] on a ledger whose last
    row has day [D] appends rows only for enumerated days strictly above [D],
    in the string order and, for well-formed days, in calendar order,
    whatever the history holds.  On an absent or header-only ledger the
    loop runs over all enumerated days. *)
Theorem resume_correctness (w : World) (argv : list string) (st : State) :
  "--full" ∉ argv ->
  (forall rows r,
      ledger st = Some (ledger_text (rows ++ [r])) ->
      plain_day (day r) = true ->
      exists new,
        ledger (main w argv st).2 = Some (ledger_text (rows ++ [r] ++ new))
        /\ Forall (fun n => day n ∈ enumerated w
                            /\ str_lt (day r) (day n)
                            /\ forall D d, date_of (day r) = Some D ->
                                           date_of (day n) = Some d -> chrono_lt D d) new)
  /\ (ledger st = None \/ ledger st = Some (ledger_text []) ->
      main w argv st
      = match git w DATES_QUERY with
        | Some _ => collect_loop w (enumerated w) (set_ledger (Some (ledger_text [])) st)
        | None => (Raised, set_ledger (Some (ledger_text [])) st)
        end).
Proof.
  intros Hfull. split.
  - intros rows r Hl Hd.
    destruct (main_appends w argv st) as (new & Hnew & Hsub).
    rewrite bool_decide_eq_false_2 in Hnew, Hsub by exact Hfull.
    rewrite Hl in Hnew, Hsub. simpl in Hnew, Hsub.
    rewrite last_collected_ledger in Hsub by exact Hd.
    exists new. split.
    + now rewrite app_assoc, ledger_text_app.
    + apply Forall_forall. intros n Hn.
      assert (Hin : day n ∈ dates_to_collect (Some (day r)) (enumerated w)).
      { eapply sublist_subseteq; [exact Hsub |]. now apply list_elem_of_fmap_2. }
      apply dates_to_collect_spec in Hin as [Hin Hlt].
      repeat split; [exact Hin | exact Hlt |].
      intros D d HD Hdn. now apply (date_str_lt (day r) (day n) D d HD Hdn).
  - intros Hl. rewrite main_run, bool_decide_eq_false_2 by exact Hfull.
    destruct Hl as [-> | ->]; simpl; rewrite dates_to_collect_none; reflexivity.
Qed.


Lemma StronglySorted_str_lt_NoDup (l : list string) :
  StronglySorted str_lt l -> NoDup l.
Proof.
  induction 1 as [|x l Hs IH Hx]; constructor; [| exact IH].
  intros Hin. eapply Forall_forall in Hx; [| exact Hin].
  now apply str_lt_irrefl in Hx.
Qed.

(** C2 (monotonic keys).  Whatever the arguments and the world, a run that
    starts on a ledger with strictly ascending days ends on a ledger with
    strictly ascending days: the old rows (none of them after [--full])
    followed by the new ones, where each adjacent pair ascends and no day
    occurs twice. *)
Theorem monotonic_keys (w : World) (argv : list string) (st : State)
    (rows : list LedgerRow) :
  ledger st = Some (ledger_text rows) ->
  Sorted str_lt (map day rows) ->
  (forall r, last rows = Some r -> plain_day (day r) = true) ->
  exists new,
    let rows' := (if bool_decide ("--full" ∈ argv) then [] else rows) ++ new in
    ledger (main w argv st).2 = Some (ledger_text rows')
    /\ Sorted str_lt (map day rows')
    /\ NoDup (map day rows').
Proof.
  intros Hl Hs Hp. apply Sorted_StronglySorted in Hs; [| apply str_lt_trans].
  destruct (main_appends w argv st) as (new & Hnew & Hsub).
  rewrite Hl in Hnew, Hsub.
  assert (Hn : StronglySorted str_lt (map day new)).
  { eapply StronglySorted_sublist; [exact Hsub | apply dates_to_collect_sorted]. }
  assert (Hdone : forall rows', StronglySorted str_lt (map day rows') ->
            Sorted str_lt (map day rows') /\ NoDup (map day rows')).
  { intros rows' H. split; [now apply StronglySorted_Sorted |].
    now apply StronglySorted_str_lt_NoDup. }
  destruct (bool_decide ("--full" ∈ argv)); simpl in Hnew, Hsub.
  - exists new. split; [exact Hnew | now apply Hdone].
  - exists new. split; [now rewrite ledger_text_app |].
    apply Hdone. rewrite map_app. apply StronglySorted_app_2; [| exact Hs | exact Hn].
    intros x y Hx Hy.
    destruct rows as [|r rows _] using rev_ind; [inversion Hx |].
    rewrite last_collected_ledger in Hsub by (apply Hp, last_snoc).
    assert (Hlt : str_lt (day r) y).
    { apply (dates_to_collect_spec w). eapply sublist_subseteq; eauto. }
    rewrite map_app in Hx, Hs. apply elem_of_app in Hx as [Hx | Hx].
    + etrans; [| exact Hlt].
      eapply StronglySorted_app_1_elem_of; [exact Hs | exact Hx |]. simpl. left.
    + simpl in Hx. apply list_elem_of_singleton in Hx as ->. exact Hlt.
Qed.

(** ** Failures *)



Lemma enumerated_no_output (w : World) (out : string) (rc : Z) :
  git w DATES_QUERY = Some (out, rc) -> strip out = EmptyString -> enumerated w = [].
Proof. intros Hg Hs. unfold enumerated. rewrite Hg, Hs. reflexivity. Qed.

(** C3 (history backend unreachable), as the code has it.  When [git]
    cannot be started for the history-listing query, the exception ends the
    run with exit code 1 and no row appended.  When [git] runs and prints
    nothing the run ends normally with exit code 0 and no row appended,
    whatever the return code: a failed query is taken for an empty
    history. *)
Theorem history_failure_outcome (w : World) (argv : list string) (st : State) :
  let st0 :=
    set_ledger (Some (initial_ledger (bool_decide ("--full" ∈ argv)) (ledger st))) st in
  (git w DATES_QUERY = None ->
   main w argv st = (Raised, st0) /\ exit_code (main w argv st).1 = 1%Z)
  /\ (forall out rc,
        git w DATES_QUERY = Some (out, rc) -> strip out = EmptyString ->
        main w argv st = (Returned tt, st0) /\ exit_code (main w argv st).1 = 0%Z).
Proof.
  intros st0. subst st0. split.
  - intros Hg. rewrite main_run, Hg. split; reflexivity.
  - intros out rc Hg Hs. rewrite main_run, Hg.
    rewrite (enumerated_no_output w out rc Hg Hs). split; reflexivity.
Qed.

Lemma cloc_scan_unusable (lines : list string) :
  Forall unusable_line lines -> cloc_scan lines = None.
Proof.
  induction 1 as [|line lines Hl _ IH]; [reflexivity |].
  simpl. destruct Hl as [H | [H | H]].
  - now rewrite H.
  - now rewrite H, andb_false_r.
  - rewrite bool_decide_eq_false_2 by lia. now destruct (_ && _).
Qed.

(** C4 (oracle failure), as the code has it.  When the size oracle cannot
    be run or no line of its output parses, in particular when every line
    of the output is empty, a header line or shorter than five fields,
    [run_cloc] returns the all-zero metric; the simplified counter is not
    consulted. *)
Theorem oracle_failure_gives_zero (w : World) (directory : list string) (st : State) :
  (oracle_fails w directory st -> run_cloc w directory st = zero_metric)
  /\ (forall out,
        cloc w (tmpfs st) directory = Some out ->
        Forall unusable_line (split LF (strip out)) ->
        run_cloc w directory st = zero_metric).
Proof.
  split; [apply run_cloc_oracle_fails |].
  intros out Hc Hu. apply run_cloc_oracle_fails.
  unfold oracle_fails, parse_cloc. rewrite Hc, cloc_scan_unusable; [exact I |].
  apply Forall_forall. intros line Hin.
  apply list_elem_of_In, in_rev, list_elem_of_In in Hin.
  eapply Forall_forall in Hu; eauto.
Qed.


(** C8 (subtree absence).  A tracked subtree for which [git archive]
    delivers nothing, as for a path the commit does not have, has the metric
    [{0, 0, 0}] in every row assembled for the commit, and its three cells
    are ["0"]; the absence alone never makes the step fail: the step then
    fails exactly when the other subtree's block raises.  The same metric
    results when the subtree is not in the temporary tree after unpacking,
    and [run_cloc] answers it for any directory that does not exist. *)
Theorem subtree_absence (w : World) (commit : string) (st : State)
    (temp_dir : list string) :
  mkdtemp w (tmpfs st) = Some temp_dir ->
  (archive_failed w commit "src" ->
   (collect_stats_for_commit w commit st).1
   = Returned
       match (measure_subtree w commit temp_dir "backend" ["src-tauri"; "src"]
                "src-tauri/src" (with_temp_dir temp_dir st)).1 with
       | Returned b =>
           Some {| frontend := zero_metric; backend := b; total_code := code b |}
       | Raised => None
       end)
  /\ (archive_failed w commit "src-tauri/src" ->
      (collect_stats_for_commit w commit st).1
      = Returned
          match (measure_subtree w commit temp_dir "frontend" ["src"] "src"
                   (with_temp_dir temp_dir st)).1 with
          | Returned f =>
              Some {| frontend := f; backend := zero_metric; total_code := code f |}
          | Raised => None
          end)
  /\ (forall s date,
        (collect_stats_for_commit w commit st).1 = Returned (Some s) ->
        (archive_failed w commit "src" ->
         frontend s = zero_metric
         /\ take 3 (drop 1 (row_cells date s)) = ["0"; "0"; "0"])
        /\ (archive_failed w commit "src-tauri/src" ->
            backend s = zero_metric
            /\ take 3 (drop 4 (row_cells date s)) = ["0"; "0"; "0"]))
  /\ (forall name tracked pathspec st1 m st2,
        measure_subtree w commit temp_dir name tracked pathspec st1 = (Returned m, st2) ->
        path_exists (temp_dir ++ [name] ++ tracked) st2 = false ->
        m = zero_metric)
  /\ (forall directory st1,
        path_exists directory st1 = false -> run_cloc w directory st1 = zero_metric).
Proof.
  intros Hm. split; [| split; [| split; [| split]]].
  - intros Ha. rewrite (collect_stats_result w commit st temp_dir Hm).
    rewrite measure_subtree_archive_failed by exact Ha.
    destruct (measure_subtree w commit temp_dir "backend" _ _ _) as [[b|] st3];
      reflexivity.
  - intros Ha. rewrite (collect_stats_result w commit st temp_dir Hm).
    destruct (measure_subtree w commit temp_dir "frontend" _ _ _) as [[f|] st2];
      [| reflexivity].
    rewrite measure_subtree_archive_failed by exact Ha. simpl.
    now rewrite N.add_0_r.
  - intros s date Hs.
    destruct (collect_stats_some w commit st s Hs) as (_ & H1 & H2 & _).
    split; intros Ha.
    + unfold row_cells. rewrite (H1 Ha). split; reflexivity.
    + unfold row_cells. rewrite (H2 Ha). split; reflexivity.
  - intros name tracked pathspec st1 m st2. unfold measure_subtree.
    destruct (git w _) as [[out rc]|]; [| discriminate].
    destruct ((rc =? 0)%Z && truthy out); [| now intros [= <- <-]].
    destruct (mkdir _ st1) as [[[]|] st1']; [| discriminate].
    destruct (tar_xf w out) as [entries|]; [| discriminate].
    rewrite <- app_assoc.
    destruct (path_exists _ _) eqn:E; intros [= <- <-]; [congruence | reflexivity].
  - intros directory st1 E. unfold run_cloc. now rewrite E.
Qed.

(** C9 (scoped cleanup).  [collect_stats_for_commit] always returns to the
    driver, with statistics or with [None], never with an exception, and
    when it does nothing is left at or below the temporary directory it
    created; the ledger and every other path are as before.  When
    [mkdtemp] itself raises nothing was created and the state is as
    before. *)
Theorem scoped_cleanup (w : World) (commit : string) (st : State) :
  let r := collect_stats_for_commit w commit st in
  (exists v, r.1 = Returned v)
  /\ ledger r.2 = ledger st
  /\ match mkdtemp w (tmpfs st) with
     | Some temp_dir =>
         (forall q, temp_dir `prefix_of` q -> tmpfs r.2 !! q = None)
         /\ (forall q, ¬ temp_dir `prefix_of` q -> tmpfs r.2 !! q = tmpfs st !! q)
     | None => r.2 = st
     end.
Proof.
  intros r. subst r.
  destruct (collect_stats_state w commit st) as (Hv & Hl & Hfs).
  split; [exact Hv |]. split; [exact Hl |].
  destruct (mkdtemp w (tmpfs st)) as [temp_dir|] eqn:Hm.
  - rewrite Hfs. split.
    + intros q Hq. now apply outside_lookup_under.
    + intros q Hq. unfold outside.
      destruct (tmpfs st !! q) as [n|] eqn:E.
      * apply map_lookup_filter_Some. split; [exact E | exact Hq].
      * apply map_lookup_filter_None. now left.
  - now rewrite collect_stats_no_temp_dir by exact Hm.
Qed.

Example first_run :
  main two_day_world [] fresh
  = (Returned tt, {| ledger := Some (ledger_text [first_row; second_row]); tmpfs := ∅ |}).
Proof. vm_compute. reflexivity. Qed.

Example second_run_appends_nothing :
  main two_day_world [] (main two_day_world [] fresh).2 = main two_day_world [] fresh.
Proof. vm_compute. reflexivity. Qed.

Example resumed_run :
  ledger (main two_day_world [] resumed).2 = Some (ledger_text [first_row; second_row]).
Proof. vm_compute. reflexivity. Qed.

Example cleanup_after_tar_failure :
  collect_stats_for_commit no_tar_world "abc123" fresh = (Returned None, fresh).
Proof. vm_compute. reflexivity. Qed.

Example simple_counter_counts : count_lines_simple ["t"] unpacked = 1.
Proof. vm_compute. reflexivity. Qed.

(** ** The theorems at concrete inputs *)

Lemma resume_correctness_witness :
  ("--full" ∉ ([] : list string))
  /\ ledger resumed = Some (ledger_text ([] ++ [first_row]))
  /\ plain_day (day first_row) = true
  /\ exists new,
       ledger (main two_day_world [] resumed).2
       = Some (ledger_text ([] ++ [first_row] ++ new))
       /\ Forall (fun n => day n ∈ enumerated two_day_world
                           /\ str_lt (day first_row) (day n)
                           /\ forall D d, date_of (day first_row) = Some D ->
                                          date_of (day n) = Some d -> chrono_lt D d) new.
Proof.
  assert (H : "--full" ∉ ([] : list string)) by (intros H; inversion H).
  split; [exact H |]. split; [reflexivity |]. split; [reflexivity |].
  apply (proj1 (resume_correctness two_day_world [] resumed H) [] first_row);
    reflexivity.
Defined.

Lemma monotonic_keys_witness :
  ledger resumed = Some (ledger_text [first_row])
  /\ Sorted str_lt (map day [first_row])
  /\ (forall r, last [first_row] = Some r -> plain_day (day r) = true)
  /\ exists new,
       let rows' := [first_row] ++ new in
       ledger (main two_day_world [] resumed).2 = Some (ledger_text rows')
       /\ Sorted str_lt (map day rows')
       /\ NoDup (map day rows').
Proof.
  assert (H1 : Sorted str_lt (map day [first_row])) by (repeat constructor).
  assert (H2 : forall r, last [first_row] = Some r -> plain_day (day r) = true)
    by (intros r [= <-]; reflexivity).
  split; [reflexivity |]. split; [exact H1 |]. split; [exact H2 |].
  apply (monotonic_keys two_day_world [] resumed [first_row] eq_refl H1 H2).
Defined.

Lemma history_failure_outcome_witness :
  git no_repository DATES_QUERY = Some (EmptyString, 128%Z)
  /\ strip EmptyString = EmptyString
  /\ main no_repository [] fresh = (Returned tt, header_only)
  /\ exit_code (main no_repository [] fresh).1 = 0%Z.
Proof.
  split; [reflexivity |]. split; [reflexivity |].
  apply (proj2 (history_failure_outcome no_repository [] fresh) EmptyString 128%Z);
    reflexivity.
Defined.

(** C3 as stated fails: outside a repository the history query fails and
    the run still ends with exit code 0. *)
Lemma history_failure_not_fatal : ~ aborts_on_history_failure no_repository [] fresh.
Proof.
  intros H. apply H.
  - unfold history_query_fails. simpl. discriminate.
  - vm_compute. reflexivity.
Qed.

Lemma oracle_failure_gives_zero_witness :
  oracle_fails no_oracle_world ["t"] unpacked
  /\ run_cloc no_oracle_world ["t"] unpacked = zero_metric.
Proof.
  assert (H : oracle_fails no_oracle_world ["t"] unpacked) by exact I.
  split; [exact H |].
  apply (proj1 (oracle_failure_gives_zero no_oracle_world ["t"] unpacked) H).
Defined.

(** C4 as stated fails: without the oracle a subtree with a line of source
    is reported as all zero, not with the simplified count of 1. *)
Lemma no_fallback_to_simple_counter :
  ~ falls_back_to_simple_counter no_oracle_world ["t"] unpacked.
Proof.
  intros H. specialize (H eq_refl I). vm_compute in H. discriminate H.
Qed.



Lemma subtree_absence_witness :
  mkdtemp two_day_world (tmpfs fresh) = Some TEMP_DIR
  /\ archive_failed two_day_world "abc123" "src-tauri/src"
  /\ (collect_stats_for_commit two_day_world "abc123" fresh).1
     = Returned (Some (stats first_row)).
Proof.
  assert (H : archive_failed two_day_world "abc123" "src-tauri/src").
  { exists EmptyString, 128%Z. split; [reflexivity | left; discriminate]. }
  split; [reflexivity |]. split; [exact H |].
  etrans;
    [apply (proj1 (proj2 (subtree_absence two_day_world "abc123" fresh TEMP_DIR eq_refl)) H)
    | vm_compute; reflexivity].
Defined.


Lemma scoped_cleanup_witness :
  let r := collect_stats_for_commit no_tar_world "abc123" fresh in
  (exists v, r.1 = Returned v)
  /\ ledger r.2 = ledger fresh
  /\ match mkdtemp no_tar_world (tmpfs fresh) with
     | Some temp_dir =>
         (forall q, temp_dir `prefix_of` q -> tmpfs r.2 !! q = None)
         /\ (forall q, ¬ temp_dir `prefix_of` q -> tmpfs r.2 !! q = tmpfs fresh !! q)
     | None => r.2 = fresh
     end.
Proof. exact (scoped_cleanup no_tar_world "abc123" fresh). Defined.

(** * Further properties of the collector *)

Section Loop.

Variable w : World.

(** One iteration, case by case. *)
Lemma collect_day_run (date : string) (st : State) :
  collect_day w date st
  = match git w (commit_query date) with
    | None => (Raised, st)
    | Some (out, _) =>
        if truthy (strip out) then
          match collect_stats_for_commit w (strip out) st with
          | (Returned (Some s), st1) => append_row date s st1
          | (Returned None, st1) => (Returned tt, st1)
          | (Raised, st1) => (Raised, st1)
          end
        else (Returned tt, st)
    end.
Proof.
  unfold collect_day, bind. rewrite get_commit_for_date_run.
  destruct (git w (commit_query date)) as [[out rc]|]; [| reflexivity].
  destruct (truthy (strip out)); [| reflexivity].
  destruct (collect_stats_for_commit w (strip out) st) as [[[s|]|] st1]; reflexivity.
Qed.

(** What one iteration does to the state: it returns unless the resolver
    cannot be started, the temporary area does not grow, and the ledger is
    as before or longer by the day's row, whose total is the sum. *)
Lemma collect_day_effect (date c : string) (st : State) :
  ledger st = Some c ->
  let r := collect_day w date st in
  (git w (commit_query date) <> None -> r.1 = Returned tt)
  /\ tmpfs r.2 ⊆ tmpfs st
  /\ (temp_dirs_fresh w -> tmpfs r.2 = tmpfs st)
  /\ exists rows,
       ledger r.2 = Some (c +:+ rows_text rows)
       /\ (rows = [] \/ exists s, rows = [{| day := date; stats := s |}])
       /\ Forall aggregate_ok rows.
Proof.
  intros Hl. cbv zeta. rewrite collect_day_run.
  assert (Hnil : forall st', ledger st' = Some c ->
            exists rows, ledger st' = Some (c +:+ rows_text rows)
              /\ (rows = [] \/ exists s, rows = [{| day := date; stats := s |}])
              /\ Forall aggregate_ok rows).
  { intros st' H'. exists []. simpl. rewrite str_app_nil_r. auto. }
  destruct (git w (commit_query date)) as [[out rc]|]; simpl.
  2:{ split; [congruence |]. repeat split; auto. }
  destruct (truthy (strip out)); simpl.
  2:{ repeat split; auto. }
  pose proof (collect_stats_state w (strip out) st) as ([v Hv] & L & Hfs).
  pose proof (collect_stats_some w (strip out) st) as Hsome.
  assert (Hsub : tmpfs (collect_stats_for_commit w (strip out) st).2 ⊆ tmpfs st).
  { destruct (mkdtemp w (tmpfs st)); rewrite Hfs; [apply map_filter_subseteq | done]. }
  assert (Heq : temp_dirs_fresh w ->
                tmpfs (collect_stats_for_commit w (strip out) st).2 = tmpfs st).
  { intros Hf. destruct (mkdtemp w (tmpfs st)) as [d|] eqn:Hm; rewrite Hfs; [| done].
    apply map_filter_id. intros q x Hq Hp. simpl in Hp.
    rewrite (Hf _ _ _ Hm Hp) in Hq. discriminate. }
  destruct (collect_stats_for_commit w (strip out) st) as [[[s|]|] st1];
    simpl in *; try discriminate.
  - repeat split; auto.
    exists [{| day := date; stats := s |}]. simpl. rewrite str_app_nil_r, L, Hl.
    repeat split; eauto. constructor; [| constructor].
    now destruct (Hsome s eq_refl) as [Ht _].
  - repeat split; auto. apply Hnil. congruence.
Qed.

(** The loop as a whole. *)
Lemma collect_loop_effect (dates : list string) (c : string) (st : State) :
  ledger st = Some c ->
  let r := collect_loop w dates st in
  ((forall d, d ∈ dates -> git w (commit_query d) <> None) -> r.1 = Returned tt)
  /\ tmpfs r.2 ⊆ tmpfs st
  /\ (temp_dirs_fresh w -> tmpfs r.2 = tmpfs st)
  /\ exists rows,
       ledger r.2 = Some (c +:+ rows_text rows)
       /\ map day rows `sublist_of` dates
       /\ Forall aggregate_ok rows.
Proof.
  revert c st. induction dates as [|d dates IH]; intros c st Hl; cbv zeta.
  - simpl. split; [reflexivity |]. split; [reflexivity |]. split; [reflexivity |].
    exists []. simpl. rewrite str_app_nil_r.
    split; [exact Hl |]. split; constructor.
  - simpl. unfold bind.
    pose proof (collect_day_effect d c st Hl) as (Hr & Hsub & Heq & rows1 & Hl1 & Hrows1 & Ha1).
    destruct (collect_day w d st) as [[[]|] st1]; simpl in *.
    + specialize (IH _ _ Hl1). cbv zeta in IH.
      destruct IH as (Hr2 & Hsub2 & Heq2 & rows2 & Hl2 & Hs2 & Ha2).
      split; [| split; [| split]].
      * intros Hg. apply Hr2. intros d' Hd'. apply Hg. now right.
      * etrans; eassumption.
      * intros Hf. rewrite Heq2, Heq by exact Hf. reflexivity.
      * exists (rows1 ++ rows2). rewrite rows_text_app, <- str_app_assoc.
        split; [exact Hl2 |]. split; [| now apply Forall_app].
        rewrite map_app. destruct Hrows1 as [-> | [s ->]]; simpl.
        -- now apply sublist_cons.
        -- now apply sublist_skip.
    + split; [| split; [| split]].
      * intros Hg. apply Hr. apply Hg. now left.
      * exact Hsub.
      * exact Heq.
      * exists rows1. split; [exact Hl1 |]. split; [| exact Ha1].
        destruct Hrows1 as [-> | [s ->]]; simpl.
        -- apply sublist_nil_l.
        -- apply sublist_skip, sublist_nil_l.
Qed.

End Loop.

(** Bring in what [collect_loop_effect] says of the loop in the goal. *)
Tactic Notation "loop_effect" constr(w) simple_intropattern(pat) :=
  match goal with
  | |- context [collect_loop w ?dates ?st] =>
      pose proof (collect_loop_effect w dates _ st eq_refl) as pat
  end.

Lemma filter_ext_elem {A} (P Q : A -> Prop)
    `{!forall x, Decision (P x), !forall x, Decision (Q x)} (l : list A) :
  (forall x, x ∈ l -> (P x <-> Q x)) -> filter P l = filter Q l.
Proof.
  induction l as [|a l IH]; intros Hall; [reflexivity |].
  assert (Ha : P a <-> Q a) by (apply Hall; left).
  assert (Hl : filter P l = filter Q l)
    by (apply IH; intros x Hx; apply Hall; now right).
  destruct (decide (P a)).
  - rewrite !filter_cons_True by tauto. now rewrite Hl.
  - rewrite !filter_cons_False by tauto. exact Hl.
Qed.

Lemma filter_none {A} (P : A -> Prop) `{!forall x, Decision (P x)} (l : list A) :
  (forall x, x ∈ l -> ~ P x) -> filter P l = [].
Proof.
  induction l as [|a l IH]; intros Hall; [reflexivity |].
  rewrite filter_cons_False by (apply Hall; left).
  apply IH. intros x Hx. apply Hall. now right.
Qed.

Lemma dates_to_collect_above (w : World) (l : string) :
  dates_to_collect (Some l) (enumerated w) = filter (str_lt l) (enumerated w).
Proof.
  unfold dates_to_collect. apply filter_ext_elem. intros d Hd.
  unfold to_collect. split.
  - intros H. apply Is_true_true in H. apply orb_prop in H as [H | H].
    + destruct l; [| discriminate]. apply str_lt_empty. now apply (enumerated_truthy w).
    + exact H.
  - intros H. apply Is_true_true, orb_true_iff. now right.
Qed.


Lemma rerun_nothing_due (w : World) (argv : list string) (st : State)
    (rows : list LedgerRow) (r : LedgerRow) :
  "--full" ∉ argv ->
  ledger st = Some (ledger_text (rows ++ [r])) ->
  plain_day (day r) = true ->
  git w DATES_QUERY <> None ->
  (forall d, d ∈ enumerated w -> ~ str_lt (day r) d) ->
  main w argv st = (Returned tt, st).
Proof.
  intros Hfull Hl Hp Hg Hmax.
  rewrite main_run, bool_decide_eq_false_2 by exact Hfull.
  destruct (git w DATES_QUERY); [| contradiction].
  rewrite Hl. simpl. rewrite last_collected_ledger by exact Hp.
  rewrite dates_to_collect_above.
  rewrite filter_none by exact Hmax.
  simpl. unfold ret. now rewrite set_ledger_same.
Qed.

(** X1.  A run without [--full] on a ledger whose last row is for a day
    that no enumerated day exceeds changes nothing: it returns normally and
    leaves the ledger and the temporary area exactly as they were. *)
Theorem rerun_appends_nothing (w : World) (argv : list string) (st : State)
    (rows : list LedgerRow) (r : LedgerRow) :
  "--full" ∉ argv ->
  ledger st = Some (ledger_text (rows ++ [r])) ->
  plain_day (day r) = true ->
  git w DATES_QUERY <> None ->
  (forall d, d ∈ enumerated w -> ~ str_lt (day r) d) ->
  main w argv st = (Returned tt, st).
Proof. apply rerun_nothing_due. Qed.

(** X2.  With [--full] the previous ledger plays no part: the run is the
    run on a missing ledger, with or without the flag, and it ends on a
    ledger that holds the header and the rows of this run alone, for
    enumerated days in ascending order. *)
Theorem full_run_is_fresh_run (w : World) (argv argv' : list string) (st : State) :
  "--full" ∈ argv ->
  main w argv st = main w argv' (set_ledger None st)
  /\ exists new,
       ledger (main w argv st).2 = Some (ledger_text new)
       /\ map day new `sublist_of` enumerated w.
Proof.
  intros Hfull. split.
  - rewrite !main_run, bool_decide_eq_true_2 by exact Hfull. simpl.
    destruct (ledger st), (bool_decide ("--full" ∈ argv')); reflexivity.
  - destruct (main_appends w argv st) as (new & Hnew & Hsub).
    rewrite bool_decide_eq_true_2 in Hnew, Hsub by exact Hfull.
    exists new. split.
    + rewrite Hnew. now destruct (ledger st).
    + destruct (ledger st); simpl in Hsub; now rewrite dates_to_collect_none in Hsub.
Qed.

(** X3.  In every row that a run appends, [total_code] is the sum of the
    two subtrees' code counts. *)
Theorem appended_rows_aggregate (w : World) (argv : list string) (st : State) :
  exists new,
    ledger (main w argv st).2
    = Some (initial_ledger (bool_decide ("--full" ∈ argv)) (ledger st) +:+ rows_text new)
    /\ Forall aggregate_ok new.
Proof.
  rewrite main_run. destruct (git w DATES_QUERY).
  - loop_effect w (_ & _ & _ & new & Hl & _ & Ha).
    exists new. split; [exact Hl | exact Ha].
  - exists []. simpl. rewrite str_app_nil_r. split; [reflexivity | constructor].
Qed.

(** X4.  Without [--full] an existing ledger is only ever appended to:
    whatever the file holds, well formed or not, and however the run ends,
    the old content is a prefix of the new. *)
Theorem ledger_is_append_only (w : World) (argv : list string) (st : State)
    (c : string) :
  "--full" ∉ argv ->
  ledger st = Some c ->
  exists appended, ledger (main w argv st).2 = Some (c +:+ appended).
Proof.
  intros Hfull Hl. destruct (main_appends w argv st) as (new & Hnew & _).
  rewrite bool_decide_eq_false_2 in Hnew by exact Hfull.
  rewrite Hl in Hnew. simpl in Hnew. eauto.
Qed.


(** X6.  A run never leaves anything behind in the temporary area: every
    path there after the run was there before, with the same content; and
    when [mkdtemp] hands out fresh directories the area is exactly as
    before. *)
Theorem temporary_area_restored (w : World) (argv : list string) (st : State) :
  tmpfs (main w argv st).2 ⊆ tmpfs st
  /\ (temp_dirs_fresh w -> tmpfs (main w argv st).2 = tmpfs st).
Proof.
  rewrite main_run. destruct (git w DATES_QUERY); [| split; reflexivity].
  loop_effect w (_ & Hs & He & _).
  split; [exact Hs | exact He].
Qed.

(** X7.  The enumerator returns each non-empty line of the stripped output
    of the listing query exactly once, and nothing else. *)
Theorem enumerated_days_spec (w : World) (out : string) (rc : Z) :
  git w DATES_QUERY = Some (out, rc) ->
  (forall d, d ∈ enumerated w <-> d <> EmptyString /\ d ∈ split LF (strip out))
  /\ NoDup (enumerated w).
Proof.
  intros Hg. split.
  - intros d. unfold enumerated. rewrite Hg, list_elem_of_filter, sorted_set_elem.
    split; intros [H1 H2]; (split; [| exact H2]).
    + intros ->. exact H1.
    + destruct d; [contradiction | exact I].
  - apply StronglySorted_str_lt_NoDup, enumerated_sorted.
Qed.

(** X8.  A resumed run processes every enumerated day above the last
    row's day, in ascending order, and no other day: the run is the loop
    over exactly these days. *)
Theorem resume_processes_all_later_days (w : World) (argv : list string) (st : State)
    (rows : list LedgerRow) (r : LedgerRow) :
  "--full" ∉ argv ->
  ledger st = Some (ledger_text (rows ++ [r])) ->
  plain_day (day r) = true ->
  git w DATES_QUERY <> None ->
  main w argv st = collect_loop w (filter (str_lt (day r)) (enumerated w)) st.
Proof.
  intros Hfull Hl Hp Hg.
  rewrite main_run, bool_decide_eq_false_2 by exact Hfull.
  destruct (git w DATES_QUERY); [| contradiction].
  rewrite Hl. simpl. rewrite last_collected_ledger by exact Hp.
  now rewrite dates_to_collect_above, set_ledger_same.
Qed.

Lemma readlines_no_LF (s : string) :
  contains LF s = false -> (length (readlines s) <= 1)%nat.
Proof.
  induction s as [|c s IH]; simpl; [lia |].
  intros H. apply orb_false_elim in H as [Hc H]. rewrite Hc.
  specialize (IH H). destruct (readlines s) as [|h [|h' t]]; simpl in *; lia.
Qed.

(** X9.  A ledger file of a single line is read as holding no row,
    whatever the line is, and so is a ledger whose last line is blank: in
    both cases [get_last_collected_date] answers [None] and a run without
    [--full] processes all enumerated days. *)
Theorem no_last_row_detected (w : World) (argv : list string) (st : State)
    (c : string) :
  "--full" ∉ argv ->
  ledger st = Some c ->
  (exists line, contains CR line = false /\ contains LF line = false
                /\ (c = line \/ c = line +:+ CRLF))
  \/ (exists rows, c = ledger_text rows +:+ CRLF) ->
  last_collected_in c = None
  /\ main w argv st
     = match git w DATES_QUERY with
       | Some _ => collect_loop w (enumerated w) st
       | None => (Raised, st)
       end.
Proof.
  intros Hfull Hl Hc.
  assert (Hn : last_collected_in c = None).
  { destruct Hc as [(line & Hcr & Hlf & Hc) | (rows & ->)].
    - unfold last_collected_in.
      destruct (decode_newlines_plain line Hcr Hlf) as [Hd He].
      rewrite bool_decide_eq_false_2; [reflexivity |].
      destruct Hc as [-> | ->].
      + rewrite Hd. pose proof (readlines_no_LF line Hlf). lia.
      + rewrite decode_newlines_app, Hd, He.
        change (decode_newlines false CRLF) with (String LF EmptyString).
        rewrite readlines_one_line by exact Hlf. simpl. lia.
    - destruct (ledger_text_ends_CRLF rows) as [p0 ->].
      unfold last_collected_in.
      rewrite (str_app_assoc p0), decode_newlines_app, decode_newlines_CRLF.
      change (decode_newlines false CRLF) with (String LF EmptyString).
      rewrite readlines_app_LF.
      change (readlines (String LF EmptyString)) with [String LF EmptyString].
      rewrite last_last. simpl.
      now destruct (bool_decide _). }
  split; [exact Hn |].
  rewrite main_run, bool_decide_eq_false_2 by exact Hfull.
  rewrite Hl. simpl. rewrite Hn, dates_to_collect_none, set_ledger_same by exact Hl.
  reflexivity.
Qed.

(** ** Numbers and the oracle's report *)























(** ** The ledger read back by [milestones.py] *)

Example int_of_str_ex :
  int_of_str " -1_000 " = Some (-1000)%Z /\ int_of_str "1__0" = None
  /\ int_of_str "+ 1" = None /\ int_of_str "007" = Some 7%Z
  /\ int_of_str EmptyString = None /\ int_of_str "1_" = None.
Proof. repeat split; reflexivity. Qed.













(** ** Runs that meet no obstacle *)




Section Unobstructed.

Variable w : World.
Hypothesis git_starts : forall args, git w args <> None.
Hypothesis tar_starts : forall archive, tar_xf w archive <> None.


Hypothesis fresh : temp_dirs_fresh w.
Hypothesis mkdtemp_works : forall fs, mkdtemp w fs <> None.


Hypothesis resolves : forall d out rc,
  d ∈ enumerated w -> git w (commit_query d) = Some (out, rc) -> truthy (strip out) = true.


End Unobstructed.



(** In a strictly ascending list nothing is above the last element. *)
Lemma sorted_last_max (l : list string) (x e : string) :
  StronglySorted str_lt (l ++ [x]) -> e ∈ l ++ [x] -> ~ str_lt x e.
Proof.
  intros Hs He Hlt. apply elem_of_app in He as [He | He].
  - apply (str_lt_irrefl x). etrans; [exact Hlt |].
    eapply StronglySorted_app_1_elem_of; [exact Hs | exact He | left].
  - apply list_elem_of_singleton in He as ->. now apply str_lt_irrefl in Hlt.
Qed.



(** ** The simplified counter *)

Lemma simple_count_permutation (directory : list string)
    (l1 l2 : list (list string * node)) :
  l1 ≡ₚ l2 ->
  foldr (fun e acc => simple_count_entry directory e + acc) 0 l1
  = foldr (fun e acc => simple_count_entry directory e + acc) 0 l2.
Proof.
  induction 1 as [|e l1 l2 _ IH|e1 e2 l|l1 l2 l3 _ IH1 _ IH2]; simpl.
  - reflexivity.
  - now rewrite IH.
  - lia.
  - congruence.
Qed.

(** X12.  [count_lines_simple] is a sum over the entries below the
    directory.  A new readable file below the directory with a recognised
    extension adds its non-blank lines to the count; a new directory, a
    file that cannot be opened, a file with another extension and a path
    that is not below the directory leave the count as it is. *)
Theorem simple_count_additive (directory p : list string) (n : node) (st : State) :
  path_exists directory st = true ->
  tmpfs st !! p = None ->
  let st' := set_tmpfs (<[p := n]> (tmpfs st)) st in
  (forall content,
      n = File (Some content) ->
      directory `prefix_of` p -> p <> directory ->
      suffix (List.last p EmptyString) ∈ EXTENSIONS ->
      count_lines_simple directory st'
      = nonblank_lines content + count_lines_simple directory st)
  /\ (n = Dir \/ n = File None \/ ¬ directory `prefix_of` p
      \/ suffix (List.last p EmptyString) ∉ EXTENSIONS ->
      count_lines_simple directory st' = count_lines_simple directory st).
Proof.
  intros He Hp st'.
  assert (Hadd : count_lines_simple directory st'
                 = simple_count_entry directory (p, n) + count_lines_simple directory st).
  { unfold count_lines_simple. rewrite He.
    assert (He' : path_exists directory st' = true).
    { unfold path_exists in *. simpl. apply bool_decide_eq_true_1 in He.
      apply bool_decide_eq_true_2, lookup_insert_is_Some'. now right. }
    rewrite He'. simpl tmpfs.
    now rewrite (simple_count_permutation directory _ _ (map_to_list_insert _ _ _ Hp)). }
  rewrite Hadd. unfold simple_count_entry. simpl. split.
  - intros content -> Hpre Hne Hsuf.
    now rewrite !bool_decide_eq_true_2 by auto.
  - intros [-> | [-> | [Hn | Hn]]].
    + reflexivity.
    + now destruct (_ && _).
    + destruct n as [|c]; [reflexivity |].
      rewrite (bool_decide_eq_false_2 (_ /\ _)) by tauto. reflexivity.
    + destruct n as [|c]; [reflexivity |].
      rewrite (bool_decide_eq_false_2 (_ ∈ _)) by exact Hn.
      now rewrite andb_false_r.
Qed.

(** ** A run as a function of its days *)

Section LedgerIndependence.

Variable w : World.

(** The per-commit step does not look at the ledger. *)
Lemma measure_subtree_set_ledger (l : option string) (commit : string)
    (temp_dir : list string) (name : string) (tracked : list string)
    (pathspec : string) (st : State) :
  measure_subtree w commit temp_dir name tracked pathspec (set_ledger l st)
  = ((measure_subtree w commit temp_dir name tracked pathspec st).1,
     set_ledger l (measure_subtree w commit temp_dir name tracked pathspec st).2).
Proof.
  unfold measure_subtree.
  destruct (git w _) as [[out rc]|]; [| reflexivity].
  destruct ((rc =? 0)%Z && truthy out); [| reflexivity].
  unfold mkdir.
  change (path_exists (temp_dir ++ [name]) (set_ledger l st))
    with (path_exists (temp_dir ++ [name]) st).
  destruct (path_exists (temp_dir ++ [name]) st); [reflexivity |].
  change (tmpfs (set_ledger l st)) with (tmpfs st).
  destruct (tmpfs st !! removelast (temp_dir ++ [name])) as [[|]|]; try reflexivity.
  destruct (tar_xf w out) as [entries|]; [| reflexivity].
  match goal with
  | |- context [if path_exists ?p ?s then _ else _] =>
      change (path_exists p s)
        with (path_exists p (set_tmpfs (unpack (temp_dir ++ [name]) entries
                                          (<[temp_dir ++ [name] := Dir]> (tmpfs st))) st))
  end.
  destruct (path_exists _ _); reflexivity.
Qed.

Lemma cleanup_set_ledger (l : option string) (temp_dir : list string) (st : State) :
  cleanup temp_dir (set_ledger l st) = set_ledger l (cleanup temp_dir st).
Proof.
  unfold cleanup.
  change (path_exists temp_dir (set_ledger l st)) with (path_exists temp_dir st).
  now destruct (path_exists temp_dir st).
Qed.

Lemma collect_stats_set_ledger (l : option string) (commit : string) (st : State) :
  collect_stats_for_commit w commit (set_ledger l st)
  = ((collect_stats_for_commit w commit st).1,
     set_ledger l (collect_stats_for_commit w commit st).2).
Proof.
  unfold collect_stats_for_commit.
  change (tmpfs (set_ledger l st)) with (tmpfs st).
  destruct (mkdtemp w (tmpfs st)) as [temp_dir|]; [| reflexivity].
  unfold try_finally, try_except, measure_commit, bind, ret.
  change (with_temp_dir temp_dir (set_ledger l st))
    with (set_ledger l (with_temp_dir temp_dir st)).
  rewrite measure_subtree_set_ledger.
  destruct (measure_subtree w commit temp_dir "frontend" _ _ (with_temp_dir temp_dir st))
    as [[f|] st2]; simpl; [| now rewrite cleanup_set_ledger].
  rewrite measure_subtree_set_ledger.
  destruct (measure_subtree w commit temp_dir "backend" _ _ st2) as [[b|] st3];
    simpl; now rewrite cleanup_set_ledger.
Qed.

Hypothesis fresh : temp_dirs_fresh w.

Lemma collect_stats_fresh (commit : string) (st : State) :
  collect_stats_for_commit w commit st
  = ((collect_stats_for_commit w commit {| ledger := None; tmpfs := tmpfs st |}).1, st).
Proof.
  assert (Hst : st = set_ledger (ledger st) {| ledger := None; tmpfs := tmpfs st |})
    by (now destruct st).
  rewrite Hst at 1. rewrite collect_stats_set_ledger. f_equal.
  pose proof (collect_stats_state w commit {| ledger := None; tmpfs := tmpfs st |})
    as (_ & _ & Hfs).
  simpl in Hfs.
  assert (E : tmpfs (collect_stats_for_commit w commit
                       {| ledger := None; tmpfs := tmpfs st |}).2 = tmpfs st).
  { destruct (mkdtemp w (tmpfs st)) as [t|] eqn:Hm; rewrite Hfs; [| reflexivity].
    apply map_filter_id. intros q x Hq Hp. simpl in Hp.
    rewrite (fresh _ _ _ Hm Hp) in Hq. discriminate. }
  destruct st as [l fs]. unfold set_ledger. simpl in *. now rewrite E.
Qed.

(** With fresh temporary directories, a day adds its row and nothing
    else changes. *)
Lemma rows_for_one (fs : gmap (list string) node) (d : string) :
  rows_for w fs [d] = match day_row w fs d with Some r => [r] | None => [] end.
Proof. unfold rows_for. simpl. now destruct (day_row w fs d). Qed.

Lemma collect_day_fresh (d c : string) (st : State) :
  git w (commit_query d) <> None ->
  ledger st = Some c ->
  collect_day w d st
  = (Returned tt,
     set_ledger (Some (c +:+ rows_text (rows_for w (tmpfs st) [d]))) st).
Proof.
  intros Hg Hl. rewrite collect_day_run, rows_for_one. unfold day_row.
  destruct (git w (commit_query d)) as [[out rc]|]; [| contradiction].
  assert (Hsame : set_ledger (Some (c +:+ rows_text [])) st = st).
  { simpl. rewrite str_app_nil_r. now apply set_ledger_same. }
  destruct (truthy (strip out)); [| now rewrite Hsame].
  rewrite collect_stats_fresh.
  pose proof (collect_stats_state w (strip out) {| ledger := None; tmpfs := tmpfs st |})
    as ([v Hv] & _).
  destruct (collect_stats_for_commit w (strip out) _).1 as [[s|]|]; try discriminate.
  - unfold append_row. rewrite Hl. simpl. now rewrite str_app_nil_r.
  - now rewrite Hsame.
Qed.

Lemma rows_for_cons (fs : gmap (list string) node) (d : string) (dates : list string) :
  rows_for w fs (d :: dates) = rows_for w fs [d] ++ rows_for w fs dates.
Proof. unfold rows_for. simpl. now destruct (day_row w fs d). Qed.

Lemma collect_loop_fresh (dates : list string) (c : string) (st : State) :
  (forall d, d ∈ dates -> git w (commit_query d) <> None) ->
  ledger st = Some c ->
  collect_loop w dates st
  = (Returned tt, set_ledger (Some (c +:+ rows_text (rows_for w (tmpfs st) dates))) st).
Proof.
  revert c st. induction dates as [|d dates IH]; intros c st Hg Hl.
  - cbn [collect_loop]. unfold ret, rows_for. cbn [omap list_omap rows_text].
    rewrite str_app_nil_r. now rewrite set_ledger_same.
  - cbn [collect_loop]. unfold bind.
    rewrite (collect_day_fresh d c) by (auto; apply Hg; left).
    rewrite (IH (c +:+ rows_text (rows_for w (tmpfs st) [d])));
      [| intros d' Hd'; apply Hg; now right | reflexivity].
    rewrite (rows_for_cons (tmpfs st) d dates), rows_text_app, str_app_assoc.
    reflexivity.
Qed.

End LedgerIndependence.

Lemma main_fresh (w : World) (argv : list string) (st : State) :
  temp_dirs_fresh w -> log_queries_start w ->
  let force_full := bool_decide ("--full" ∈ argv) in
  main w argv st
  = (Returned tt,
     set_ledger
       (Some (initial_ledger force_full (ledger st)
              +:+ rows_text (rows_for w (tmpfs st)
                               (dates_to_collect (resume_point force_full (ledger st))
                                                 (enumerated w))))) st).
Proof.
  intros Hf [Hd Hq] force_full. rewrite main_run. fold force_full.
  destruct (git w DATES_QUERY); [| contradiction].
  rewrite (collect_loop_fresh w Hf _ (initial_ledger force_full (ledger st)));
    [reflexivity | | reflexivity].
  intros d Hin. apply Hq. unfold dates_to_collect in Hin.
  now apply list_elem_of_filter in Hin as [_ Hin].
Qed.


(** ** Growth of the history *)

Lemma filter_all {A} (P : A -> Prop) `{!forall x, Decision (P x)} (l : list A) :
  (forall x, x ∈ l -> P x) -> filter P l = l.
Proof.
  induction l as [|a l IH]; intros Hall; [reflexivity |].
  rewrite filter_cons_True by (apply Hall; left).
  f_equal. apply IH. intros x Hx. apply Hall. now right.
Qed.

(** Resuming after the last day that got a row skips only days that get
    no row. *)
Lemma resume_skips_rowless (f : string -> option LedgerRow) (E later : list string) :
  (forall d r, f d = Some r -> day r = d) ->
  (forall d, d ∈ E -> truthy d = true) ->
  StronglySorted str_lt (E ++ later) ->
  omap f (dates_to_collect (day <$> last (omap f E)) (E ++ later)) = omap f later.
Proof.
  intros Hday. revert later.
  induction E as [|x E IH] using rev_ind; intros later Ht Hs.
  - simpl. now rewrite dates_to_collect_none.
  - rewrite omap_app. simpl (omap f [x]). destruct (f x) as [r|] eqn:Hx.
    + rewrite last_snoc. simpl. rewrite (Hday _ _ Hx).
      assert (Htx : truthy x = true) by (apply Ht, elem_of_app; right; left).
      unfold dates_to_collect. rewrite filter_app.
      rewrite (filter_none _ (E ++ [x])), (filter_all _ later); [reflexivity | |].
      * intros e He. apply Is_true_true. unfold to_collect. rewrite Htx. simpl.
        eapply (StronglySorted_app_1_elem_of _ _ _ _ _ Hs); [| exact He].
        apply elem_of_app. right. left.
      * intros e He Hc. apply Is_true_true in Hc. unfold to_collect in Hc.
        rewrite Htx in Hc. simpl in Hc.
        apply StronglySorted_app_1_l in Hs.
        now apply (sorted_last_max E x e Hs He).
    + rewrite app_nil_r, <- app_assoc. simpl ([x] ++ later).
      rewrite IH.
      * simpl. now rewrite Hx.
      * intros d Hd. apply Ht, elem_of_app. now left.
      * now rewrite <- app_assoc in Hs.
Qed.

Lemma archive_query_not_listing (commit pathspec : string) :
  archive_query commit pathspec <> DATES_QUERY.
Proof. discriminate. Qed.

Lemma commit_query_not_listing (d : string) : commit_query d <> DATES_QUERY.
Proof. discriminate. Qed.

Section SameButListing.

Variables w1 w2 : World.
Hypothesis same : same_but_listing w1 w2.

Lemma run_cloc_same (directory : list string) (st : State) :
  run_cloc w1 directory st = run_cloc w2 directory st.
Proof.
  destruct same as (_ & _ & _ & Hc). unfold run_cloc. now rewrite Hc.
Qed.

Lemma measure_subtree_same (commit : string) (temp_dir : list string) (name : string)
    (tracked : list string) (pathspec : string) (st : State) :
  measure_subtree w1 commit temp_dir name tracked pathspec st
  = measure_subtree w2 commit temp_dir name tracked pathspec st.
Proof.
  destruct same as (Hg & _ & Ht & _). unfold measure_subtree.
  rewrite (Hg _ (archive_query_not_listing commit pathspec)).
  destruct (git w2 _) as [[out rc]|]; [| reflexivity].
  destruct ((rc =? 0)%Z && truthy out); [| reflexivity].
  destruct (mkdir _ st) as [[u|] st1]; [| reflexivity].
  rewrite Ht. destruct (tar_xf w2 out) as [entries|]; [| reflexivity].
  cbv zeta. now rewrite run_cloc_same.
Qed.

Lemma collect_stats_same (commit : string) (st : State) :
  collect_stats_for_commit w1 commit st = collect_stats_for_commit w2 commit st.
Proof.
  destruct same as (_ & Hm & _ & _). unfold collect_stats_for_commit.
  rewrite Hm. destruct (mkdtemp w2 (tmpfs st)) as [temp_dir|]; [| reflexivity].
  unfold try_finally, try_except, measure_commit, bind, ret.
  rewrite measure_subtree_same.
  destruct (measure_subtree w2 commit temp_dir "frontend" _ _ (with_temp_dir temp_dir st))
    as [[f|] st2]; [| reflexivity].
  now rewrite measure_subtree_same.
Qed.

Lemma rows_for_same (fs : gmap (list string) node) (dates : list string) :
  rows_for w1 fs dates = rows_for w2 fs dates.
Proof.
  assert (Hrow : forall d, day_row w1 fs d = day_row w2 fs d).
  { intros d. unfold day_row. destruct same as (Hg & _).
    rewrite (Hg _ (commit_query_not_listing d)).
    destruct (git w2 _) as [[out rc]|]; [| reflexivity].
    now rewrite collect_stats_same. }
  unfold rows_for. induction dates as [|d dates IH]; [reflexivity |].
  cbn [omap list_omap]. fold (omap (day_row w1 fs) dates) (omap (day_row w2 fs) dates).
  now rewrite Hrow, IH.
Qed.

Lemma temp_dirs_fresh_same : temp_dirs_fresh w1 -> temp_dirs_fresh w2.
Proof.
  destruct same as (_ & Hm & _). intros Hf fs d q Hd. apply Hf. now rewrite Hm.
Qed.

End SameButListing.

Lemma day_row_day (w : World) (fs : gmap (list string) node) (d : string) (r : LedgerRow) :
  day_row w fs d = Some r -> day r = d.
Proof.
  unfold day_row. destruct (git w _) as [[out rc]|]; [| discriminate].
  destruct (truthy _); [| discriminate].
  destruct (collect_stats_for_commit _ _ _).1 as [[s|]|]; try discriminate.
  now intros [= <-].
Qed.

Lemma last_collected_rows (rows : list LedgerRow) :
  (forall r, r ∈ rows -> plain_day (day r) = true) ->
  last_collected_in (ledger_text rows) = day <$> last rows.
Proof.
  intros Hp. destruct rows as [|r rows _] using rev_ind.
  - apply last_collected_header.
  - rewrite last_snoc. simpl. apply last_collected_ledger.
    apply Hp, elem_of_app. right. left.
Qed.

(** X17.  An incremental run after the history has grown gives the ledger
    of a full recollection.  Take a ledger written by a [--full] run, and
    a later history that lists the same days followed by further days and
    answers every other query as before.  With fresh temporary directories
    and history queries that can be started, a run without [--full] on
    that ledger ends in the same state as a [--full] run on the later
    history, for days that are written to the ledger unquoted. *)
Theorem incremental_run_equals_full_run (w1 w2 : World) (later full argv : list string)
    (st : State) :
  temp_dirs_fresh w1 -> log_queries_start w1 -> log_queries_start w2 ->
  same_but_listing w1 w2 ->
  enumerated w2 = enumerated w1 ++ later ->
  (forall d, d ∈ enumerated w1 -> plain_day d = true) ->
  "--full" ∈ full -> "--full" ∉ argv ->
  main w2 argv (main w1 full st).2 = main w2 full st.
Proof.
  intros Hf H1 H2 Hsame Hgrow Hplain Hfull Hinc.
  pose proof (temp_dirs_fresh_same w1 w2 Hsame Hf) as Hf2.
  rewrite (main_fresh w1 full st Hf H1), (main_fresh w2 full st Hf2 H2).
  rewrite (bool_decide_eq_true_2 _ Hfull).
  assert (Hi : initial_ledger true (ledger st) = csv_writerow HEADER)
    by (now destruct (ledger st)).
  assert (Hr : resume_point true (ledger st) = None) by (now destruct (ledger st)).
  rewrite Hi, Hr, !dates_to_collect_none. cbn [snd].
  rewrite (main_fresh w2 argv _ Hf2 H2), (bool_decide_eq_false_2 _ Hinc).
  cbn [set_ledger ledger tmpfs initial_ledger resume_point].
  fold (ledger_text (rows_for w1 (tmpfs st) (enumerated w1))).
  rewrite last_collected_rows.
  - rewrite Hgrow. rewrite (rows_for_same w1 w2 Hsame). unfold rows_for.
    rewrite (resume_skips_rowless (day_row w2 (tmpfs st))).
    + unfold ledger_text. rewrite omap_app, rows_text_app, str_app_assoc.
      reflexivity.
    + apply day_row_day.
    + apply enumerated_truthy.
    + rewrite <- Hgrow. apply enumerated_sorted.
  - intros r Hr'. unfold rows_for in Hr'. apply list_elem_of_omap in Hr' as (d & Hd & Hrow).
    apply day_row_day in Hrow as ->. now apply Hplain.
Qed.

(** ** The further properties at concrete inputs *)

Lemma long_name_length (n : nat) : String.length (long_name n) = n.
Proof. induction n as [|n IH]; simpl; [reflexivity | now rewrite IH]. Qed.

Lemma longest_head_bound (fs : gmap (list string) node) (q : list string) (x : node) :
  fs !! q = Some x -> (String.length (hd EmptyString q) <= longest_head fs)%nat.
Proof.
  intros H. apply elem_of_map_to_list in H. unfold longest_head.
  induction (map_to_list fs) as [|kv l IH]; [inversion H |].
  simpl. apply elem_of_cons in H as [<- | H]; [simpl; lia |].
  specialize (IH H). lia.
Qed.

Lemma enumerated_two_days : enumerated smooth_world = ["2024-01-01"; "2024-01-02"].
Proof. vm_compute. reflexivity. Qed.

Lemma smooth_world_fresh : temp_dirs_fresh smooth_world.
Proof.
  intros fs d q [= <-] [k ->]. destruct (fs !! _) as [x|] eqn:E; [| reflexivity].
  apply longest_head_bound in E. simpl in E. rewrite long_name_length in E. lia.
Qed.

Lemma smooth_world_unobstructed : unobstructed smooth_world.
Proof.
  split; [| split; [| split; [| split]]].
  - intros args. simpl. destruct (bool_decide _); [discriminate |].
    destruct args as [|a args]; [discriminate |].
    repeat (match goal with |- context [match ?x with _ => _ end] => destruct x end;
            try discriminate).
  - intros d out rc _. simpl. now intros [= <- <-].
  - discriminate.
  - discriminate.
  - apply smooth_world_fresh.
Qed.

Lemma no_full_flag : "--full" ∉ ([] : list string).
Proof. intros H. inversion H. Qed.

Lemma nothing_above_second_day (d : string) :
  d ∈ enumerated smooth_world -> ~ str_lt (day second_row) d.
Proof.
  rewrite enumerated_two_days. intros H.
  apply elem_of_cons in H as [-> | H]; [discriminate |].
  apply list_elem_of_singleton in H as ->. discriminate.
Qed.

Lemma rerun_appends_nothing_witness :
  ("--full" ∉ ([] : list string))
  /\ ledger two_rows = Some (ledger_text ([first_row] ++ [second_row]))
  /\ plain_day (day second_row) = true
  /\ git smooth_world DATES_QUERY <> None
  /\ main smooth_world [] two_rows = (Returned tt, two_rows).
Proof.
  assert (Hg : git smooth_world DATES_QUERY <> None) by discriminate.
  split; [exact no_full_flag |]. split; [reflexivity |]. split; [reflexivity |].
  split; [exact Hg |].
  exact (rerun_appends_nothing smooth_world [] two_rows [first_row] second_row
           no_full_flag eq_refl eq_refl Hg nothing_above_second_day).
Defined.

Lemma full_run_is_fresh_run_witness :
  "--full" ∈ ["--full"]
  /\ main smooth_world ["--full"] two_rows = main smooth_world [] (set_ledger None two_rows)
  /\ exists new,
       ledger (main smooth_world ["--full"] two_rows).2 = Some (ledger_text new)
       /\ map day new `sublist_of` enumerated smooth_world.
Proof.
  assert (H : "--full" ∈ ["--full"]) by left.
  split; [exact H |].
  exact (full_run_is_fresh_run smooth_world ["--full"] [] two_rows H).
Defined.

Lemma ledger_is_append_only_witness :
  ("--full" ∉ ([] : list string))
  /\ ledger resumed = Some (ledger_text [first_row])
  /\ exists appended,
       ledger (main two_day_world [] resumed).2
       = Some (ledger_text [first_row] +:+ appended).
Proof.
  split; [exact no_full_flag |]. split; [reflexivity |].
  exact (ledger_is_append_only two_day_world [] resumed _ no_full_flag eq_refl).
Defined.

Lemma smooth_world_queries_start : log_queries_start smooth_world.
Proof.
  destruct smooth_world_unobstructed as (Hg & _). split; [apply Hg | intros d _; apply Hg].
Qed.


Lemma temporary_area_restored_witness :
  temp_dirs_fresh smooth_world
  /\ tmpfs (main smooth_world [] unpacked).2 = tmpfs unpacked.
Proof.
  split; [exact smooth_world_fresh |].
  exact (proj2 (temporary_area_restored smooth_world [] unpacked) smooth_world_fresh).
Defined.

Lemma enumerated_days_spec_witness :
  git two_day_world DATES_QUERY
  = Some (join_lines ["2024-01-02"; "2024-01-01"; "2024-01-02"; EmptyString], 0%Z)
  /\ (forall d, d ∈ enumerated two_day_world
                <-> d <> EmptyString
                    /\ d ∈ split LF (strip (join_lines ["2024-01-02"; "2024-01-01";
                                                       "2024-01-02"; EmptyString])))
  /\ NoDup (enumerated two_day_world).
Proof.
  split; [reflexivity |].
  exact (enumerated_days_spec two_day_world _ 0%Z eq_refl).
Defined.

Lemma resume_processes_all_later_days_witness :
  ("--full" ∉ ([] : list string))
  /\ ledger resumed = Some (ledger_text ([] ++ [first_row]))
  /\ plain_day (day first_row) = true
  /\ git two_day_world DATES_QUERY <> None
  /\ main two_day_world [] resumed
     = collect_loop two_day_world
         (filter (str_lt (day first_row)) (enumerated two_day_world)) resumed.
Proof.
  assert (Hg : git two_day_world DATES_QUERY <> None) by discriminate.
  split; [exact no_full_flag |]. split; [reflexivity |]. split; [reflexivity |].
  split; [exact Hg |].
  exact (resume_processes_all_later_days two_day_world [] resumed [] first_row
           no_full_flag eq_refl eq_refl Hg).
Defined.

Lemma no_last_row_detected_witness :
  ("--full" ∉ ([] : list string))
  /\ ledger blank_tail = Some (ledger_text [first_row; second_row] +:+ CRLF)
  /\ last_collected_in (ledger_text [first_row; second_row] +:+ CRLF) = None
  /\ main two_day_world [] blank_tail
     = collect_loop two_day_world (enumerated two_day_world) blank_tail.
Proof.
  split; [exact no_full_flag |]. split; [reflexivity |].
  exact (no_last_row_detected two_day_world [] blank_tail _ no_full_flag eq_refl
           (or_intror (ex_intro _ [first_row; second_row] eq_refl))).
Defined.



Lemma simple_count_additive_witness :
  path_exists ["t"] measured = true
  /\ tmpfs measured !! ["t"; "a.ts"] = None
  /\ count_lines_simple ["t"] unpacked = nonblank_lines "x = 1" + count_lines_simple ["t"] measured.
Proof.
  split; [reflexivity |]. split; [reflexivity |].
  refine (proj1 (simple_count_additive ["t"] ["t"; "a.ts"] (File (Some "x = 1")) measured
                   eq_refl eq_refl) "x = 1" eq_refl _ _ _).
  - exists ["a.ts"]. reflexivity.
  - discriminate.
  - left.
Defined.



Lemma smooth_days_plain (d : string) : d ∈ enumerated smooth_world -> plain_day d = true.
Proof.
  rewrite enumerated_two_days. intros H.
  apply elem_of_cons in H as [-> | H]; [reflexivity |].
  apply list_elem_of_singleton in H as ->. reflexivity.
Qed.


Lemma grown_world_queries_start : log_queries_start grown_world.
Proof.
  split; [discriminate |]. intros d _. unfold grown_world. cbn [git].
  rewrite bool_decide_eq_false_2 by apply commit_query_not_listing.
  apply smooth_world_unobstructed.
Qed.

Lemma grown_world_same : same_but_listing smooth_world grown_world.
Proof.
  split; [| now repeat split]. intros args Ha. unfold grown_world. cbn [git].
  now rewrite bool_decide_eq_false_2 by exact Ha.
Qed.

Lemma grown_world_days : enumerated grown_world = enumerated smooth_world ++ ["2024-01-03"].
Proof. vm_compute. reflexivity. Qed.

Lemma full_flag : "--full" ∈ ["--full"].
Proof. left. Qed.


Lemma incremental_run_equals_full_run_witness :
  enumerated grown_world = enumerated smooth_world ++ ["2024-01-03"]
  /\ main grown_world [] (main smooth_world ["--full"] fresh).2
     = main grown_world ["--full"] fresh.
Proof.
  split; [exact grown_world_days |].
  exact (incremental_run_equals_full_run smooth_world grown_world ["2024-01-03"]
           ["--full"] [] fresh smooth_world_fresh smooth_world_queries_start
           grown_world_queries_start grown_world_same grown_world_days
           smooth_days_plain full_flag no_full_flag).
Defined.
